(* ===== verification/_CoqProject ===== *)
-Q . S2P
Prelude.v
Js.v
Schema.v
TypeExpr.v
Walk.v
Tree.v
FieldTable.v
SharedState.v
MockJson.v
ResponseSchema.v
Json.v
Plugin.v
