(* ===== verification/Prelude.v ===== *)
(** * A verification library for codegen-plugin-md

    The repository is a GraphQL code-generator plugin, [src/index.js]. Its
    one export [plugin(schema, documents, config)] reads the schema's
    type map and query fields. For every query it emits a Markdown
    documentation block. The block has a field table, an example request
    and an example response. The work is done by three recursive walkers
    over the schema's type graph, which may be cyclic. They are local
    functions of [plugin]:
    - [addSubFields(deep, field, path)] (lines 14-51) pushes one table
      row per reachable field into the shared [lines] array;
    - [buildMockJson(field, path)] (lines 54-90) builds an example value;
    - [buildResponseSchema(field, path)] (lines 92-146) builds the
      selection set of the example query.
    The three walkers parse the type string [field.type.toString()] with the
    same inline string surgery. They cut cycles with the same guard: a
    [path] array of type names. Each call pushes its type onto its own
    [path], and each child gets a copy [[...path]].

    ** Files and what they model
    - [Prelude] (this file): the scope [codegen_scope], the hint database
      [codegen], the tactics and the generic lemmas on lists, options and
      finite maps that the components share.
    - [Js]: the JavaScript semantics the code relies on.
      [String.prototype.includes], [replace] with a string pattern (first
      occurrence only), [startsWith], [padStart], [Array.prototype.join],
      [Array.prototype.includes] on strings, the [||] default of a possibly
      empty description, and JS values ([jsval]) with object-property
      assignment. A thrown [TypeError] is a value of [completion].
    - [Schema]: the graphql-js objects the plugin reads. Type expressions
      are [GraphQLNamedType]/[GraphQLList]/[GraphQLNonNull] with their
      [toString]. Named types are a tagged union over the graphql-js classes,
      probed the way the code probes them ([_values], [_fields]). The type
      map is a [gmap string typedef].
    - [TypeExpr]: the type-string surgery of lines 15-19, 55-58 and 93-95
      ([strip_type], [is_required]). Its theorems characterise exactly
      which type expressions keep their named type. Two real bugs show up
      here: ['1'] is tested where ['!'] is meant, and [[T!]!] keeps a ['!'].
    - [Walk]: the cycle guard, shared by the three walkers. It is a
      typeclass [GuardedBody] for an open-recursion body that recurses
      only on a fresh type name of the map, pushed on a copy of the path.
      The fuel-indexed fixpoint [walk] is proved total with enough fuel
      and independent of the fuel. It satisfies its unfolding equation.
    - [Tree]: the abstract traversal. [unfold] builds the unfolding of
      the type graph from a field, cut where a type repeats on the path
      ([ttree], with a [node_kind] per guard outcome). No code builds it;
      it is the specification the three walkers refine.
    - [FieldTable]: [addSubFields] with its rows ([row], [row_line]); the
      pushes into [lines] are the returned list of rows, in push order.
      [table_of] is the same table as a fold over the unfolding tree.
    - [SharedState]: the state [addSubFields] really mutates: the shared
      [lines] array and a heap of path arrays ([store]), with [lines.push],
      [path.push], [path.includes] and the copy [[...path]] as operations
      of a state monad, and [addSubFields_st], the statement sequence of
      lines 14-51 over that state.
    - [MockJson]: [buildMockJson], exceptions included (an enum with no
      values throws a [TypeError] at [define._values[0].value]); the
      property assignments of the [json] object are [js_set] in order.
      [mock_of] is the example value as a fold over the tree.
    - [ResponseSchema]: [buildResponseSchema], its template strings
      reproduced to the byte, and [buildQueryInput] (lines 148-156).
      [shape_of] is the selection as a fold over the tree.
    - [Json]: [JSON.stringify(v, undefined, 4)], the ECMAScript algorithm
      on [jsval] (omitted [undefined] properties, QuoteJSONString).
    - [Plugin]: the assembly of lines 9-203. [query_block] is the lines
      pushed for one query, [build_variables] the [map]/[reduce] of the
      arguments with object spread, [plugin_lines] the header and the
      blocks, [plugin] the final [join]. Exceptions propagate as the
      [completion] of the whole call.

    ** Theorems
    - [TypeExpr]: the surgery in closed form ([strip_type_correct]); when
      the stripped name is the named type; the two bugs ([[T!]!] keeps a
      ['!']; [required] tests the digit ['1']).
    - Termination: each walker returns with [S (size types)] fuel on every
      duplicate-free path of type names ([addSubFields_total];
      [plugin_total] when no enum is empty).
    - Refinement: [addSubFields_refines], [buildMockJson_refines] and
      [buildResponseSchema_refines] show that each walker computes the
      fold of [Tree.unfold], so the three walkers visit the same tree.
      [SharedState.addSubFields_st_spec] shows that the stateful code
      appends exactly the functional model's rows to [lines] and changes
      no path array but its own, so siblings never see each other's
      pushes; [addSubFields_st_refines] is its root call on a fresh [[]]
      and [addSubFields_st_idempotent] the idempotence the spec asks for.
    - Every branch of every walker (cycle, built-in scalar, unresolved
      name, enum, object, the root of the selection), errors included
      ([plugin_empty_enum], [plugin_no_query_type]), and which fields the
      example query selects ([buildResponseSchema_selected_iff]): enum
      fields are in the example response and never in the query.
    - Output text: the query text has well-nested braces
      ([buildQueryInput_balanced]), every table row has its four cells
      unless a description holds a ['|'] ([row_line_pipes]), and the
      document has one section per query ([plugin_lines_sections]).
    - Bounds: the indentation of the rows; the field's own rows at its
      depth, every sub-field's row strictly deeper and within the number
      of type names left ([addSubFields_depth_bound]).

    ** Fuel
    The walkers are written as [walk body (S (size types))]. A child call
    happens only for a type name that is a key of the type map and is not
    yet in the path, and the path stays duplicate-free. So a path has at
    most [size types] names, and [S (size types)] fuel is always enough.
    [Walk.walk_total] proves this, and [Walk.walk_fuel_irrel] proves the
    result the same for any larger fuel.

    ** Not modelled
    The schema provider (graphql-js [buildSchema]) and the codegen runner
    that calls [plugin] are outside [src/]. The [documents] and [config]
    arguments are never read. JS numbers are kept as their printed text
    ("1", "1.1"), which is all the plugin ever produces or prints.
    [JSON.stringify] is modelled for the values the plugin builds; the
    key order of objects is insertion order, as no GraphQL name is an
    array index.

    ** Plan
    Modelled and proved: every function of [src/index.js] and the output
    text. Left for later: the string level of the output (the table rows
    and the JSON text as functions of the tree, e.g. that [JSON.stringify]
    omits exactly the properties cut by the cycle guard), invariants of
    the unfolding tree (no type repeats on a branch, its height), and the
    plugin loop's own [lines.push] on the shared state of [SharedState]
    (only [addSubFields] is run on that state so far). *)

From stdpp Require Export base list gmap strings.
From Stdlib Require Export Ascii.


Declare Scope codegen_scope.
Delimit Scope codegen_scope with cg.

Create HintDb codegen discriminated.
Create Rewrite HintDb codegen_rw.

(** ** Generic lemmas on lists and finite maps *)

Section PathBound.
Context {V : Type}.

(** A duplicate-free list of keys of a map is no longer than the map. *)
Lemma nodup_keys_length_le (m : gmap string V) (p : list string) :
  NoDup p → (∀ t, t ∈ p → is_Some (m !! t)) → length p ≤ size m.
Proof.
  intros Hnd Hin.
  assert (size (list_to_set p : gset string) = length p) as <-
    by (apply size_list_to_set; done).
  rewrite <- size_dom. apply subseteq_size. intros t Ht.
  apply elem_of_list_to_set in Ht. apply elem_of_dom. by apply Hin.
Qed.
End PathBound.

Lemma NoDup_snoc {A} (p : list A) (t : A) :
  NoDup p → t ∉ p → NoDup (p ++ [t]).
Proof.
  intros Hnd Ht. apply NoDup_app. split_and!; [done| |apply NoDup_singleton].
  intros x Hx ->%list_elem_of_singleton. done.
Qed.

Lemma length_snoc {A} (p : list A) (t : A) : length (p ++ [t]) = S (length p).
Proof. rewrite length_app. simpl. lia. Qed.

Lemma elem_of_snoc {A} (p : list A) (t x : A) : x ∈ p ++ [t] ↔ x ∈ p ∨ x = t.
Proof. rewrite elem_of_app, list_elem_of_singleton. done. Qed.

#[export] Hint Resolve NoDup_snoc : codegen.
#[export] Hint Rewrite @length_snoc : codegen_rw.

(** [mapM] over an option-valued function agrees for two functions that
    agree on the elements of the list. *)
Lemma mapM_ext_elem {A B} (f g : A → option B) (l : list A) :
  (∀ x, x ∈ l → f x = g x) → mapM f l = mapM g l.
Proof. intros H. apply Forall_mapM_ext, Forall_forall. intros x Hx. by apply H. Qed.

Lemma mapM_is_Some_elem {A B} (f : A → option B) (l : list A) :
  (∀ x, x ∈ l → is_Some (f x)) → is_Some (mapM f l).
Proof. intros H. apply mapM_is_Some, Forall_forall. intros x Hx. by apply H. Qed.

(** A map after the fact commutes with [mapM]. *)
Lemma mapM_fmap_out {A B C} (f : A → option B) (g : B → C) (l : list A) :
  mapM (λ x, g <$> f x) l = map g <$> mapM f l.
Proof.
  induction l as [|x l IH]; [done|]. simpl.
  destruct (f x); simpl; [|done]. rewrite IH. by destruct (mapM f l).
Qed.

(** An element of the right list of a [Forall2] has a partner on the left. *)
Lemma Forall2_elem_r {A B} (P : A → B → Prop) (l : list A) (k : list B) (y : B) :
  Forall2 P l k → y ∈ k → ∃ x, x ∈ l ∧ P x y.
Proof.
  induction 1 as [|x y' l k Hxy _ IH]; [by intros ?%elem_of_nil|].
  intros [->|Hy]%elem_of_cons; [exists x; split; [left|done]|].
  destruct (IH Hy) as (x' & Hx' & HP). exists x'. split; [by right|done].
Qed.

(** Case analysis on the boolean tests of the code. *)
Ltac case_bool_decide_eqn :=
  match goal with
  | |- context [bool_decide ?P] => destruct (bool_decide_reflect P)
  end.

(** [omap] drops a mapped list whose images all give [None]. *)
Lemma omap_map_none {A B C} (f : B → option C) (g : A → B) (l : list A) :
  (∀ x, f (g x) = None) → omap f (map g l) = [].
Proof. intros Hf. induction l as [|x l IH]; [done|]. simpl. by rewrite Hf. Qed.

Lemma omap_cons {A B} (f : A → option B) (x : A) (l : list A) :
  omap f (x :: l) = option_list (f x) ++ omap f l.
Proof. simpl. by destruct (f x). Qed.
