(* ===== verification/Js.v ===== *)
(** * JavaScript semantics used by [src/index.js]

    The string methods the plugin calls, on Rocq's byte strings:
    [includes], [replace] with a string pattern (which replaces the FIRST
    occurrence only), [startsWith], [padStart] and [Array.prototype.join].
    Also [Array.prototype.includes] on an array of strings, the [x || d]
    default of a description, JS values with property assignment, and a
    [completion] type for code that may throw. *)

From S2P Require Import Prelude.

(** ** Strings *)

(** [s.includes(pat)]: [pat] occurs somewhere in [s]. *)
Fixpoint js_includes (pat s : string) : bool :=
  String.prefix pat s ||
  match s with
  | EmptyString => false
  | String _ s' => js_includes pat s'
  end.

(** [s.startsWith(pat)]. *)
Definition js_startsWith (pat s : string) : bool := String.prefix pat s.

(** The suffix of [s] after its first [n] characters. *)
Fixpoint str_drop (n : nat) (s : string) : string :=
  match n, s with
  | 0, _ => s
  | S _, EmptyString => EmptyString
  | S n', String _ s' => str_drop n' s'
  end.

(** [s.replace(pat, rep)] for a string [pat]: the first occurrence of [pat]
    is replaced by [rep]; without an occurrence [s] is returned. *)
Fixpoint js_replace (pat rep s : string) : string :=
  if String.prefix pat s
  then rep +:+ str_drop (String.length pat) s
  else match s with
       | EmptyString => EmptyString
       | String c s' => String c (js_replace pat rep s')
       end.

(** [n] copies of a character. *)
Fixpoint repeat_char (c : ascii) (n : nat) : string :=
  match n with
  | 0 => EmptyString
  | S n' => String c (repeat_char c n')
  end.

(** [s.padStart(n, c)] for a one-character pad [c]. *)
Definition js_padStart (s : string) (n : nat) (c : ascii) : string :=
  repeat_char c (n - String.length s) +:+ s.

(** A newline, and [n] spaces: the layout of the template literals. *)
Definition nl : string := String "010"%char "".
Definition spaces (n : nat) : string := repeat_char " " n.

(** [arr.join(sep)] on an array of strings. *)
Definition js_join (sep : string) (l : list string) : string :=
  String.concat sep l.

(** [arr.includes(x)] on an array of strings (strict equality). *)
Definition js_array_includes (x : string) (arr : list string) : bool :=
  bool_decide (x ∈ arr).

(** [arr.filter(e => !!e)] on an array of strings or [undefined] (the
    [None]s): [undefined] and the empty string are dropped. *)
Definition js_filter_truthy (l : list (option string)) : list string :=
  omap (λ o, match o with
             | Some s => if String.eqb s "" then None else Some s
             | None => None
             end) l.

(** [`${x}`] on a string or [undefined]. *)
Definition js_show (o : option string) : string :=
  match o with
  | Some s => s
  | None => "undefined"
  end.

(** [d || dflt] where [d] is an optional description: [undefined], [null]
    and the empty string are falsy. *)
Definition js_or (d : option string) (dflt : string) : string :=
  match d with
  | Some s => if String.eqb s "" then dflt else s
  | None => dflt
  end.

(** ** Values *)

(** The JS values the plugin builds. Numbers are kept as their printed text
    ([String(n)]), which is all the plugin produces or prints. Object
    properties are kept in insertion order. *)
Inductive jsval :=
| JUndefined
| JNull
| JBool (b : bool)
| JNumber (repr : string)
| JString (s : string)
| JArray (elems : list jsval)
| JObject (props : list (string * jsval)).

(** [obj[k] = v]: an existing property is overwritten in place, a new one
    is appended. *)
Fixpoint js_set (k : string) (v : jsval) (props : list (string * jsval))
    : list (string * jsval) :=
  match props with
  | [] => [(k, v)]
  | (k', v') :: props' =>
      if String.eqb k k' then (k, v) :: props' else (k', v') :: js_set k v props'
  end.

(** [`${v}`]: ToString of a value. An array is [join(',')] of its
    elements, where [undefined] and [null] elements are written as the
    empty string ([Array.prototype.toString]); a plain object is
    ["[object Object]"]. *)
Fixpoint js_to_string (v : jsval) : string :=
  match v with
  | JUndefined => "undefined"
  | JNull => "null"
  | JBool true => "true"
  | JBool false => "false"
  | JNumber r => r
  | JString s => s
  | JArray vs =>
      js_join "," (map (λ e, match e with
                             | JUndefined | JNull => ""
                             | _ => js_to_string e
                             end) vs)
  | JObject _ => "[object Object]"
  end.

(** ** Exceptions *)

Inductive js_exn := TypeError (msg : string).

(** The completion of a JS computation: a normal value or a thrown
    exception. *)
Inductive completion (A : Type) :=
| Normal (v : A)
| Throw (e : js_exn).
Arguments Normal {A} v.
Arguments Throw {A} e.

Definition cbind {A B} (c : completion A) (k : A → completion B) : completion B :=
  match c with
  | Normal v => k v
  | Throw e => Throw e
  end.

Notation "x <-! c ; k" := (cbind c (λ x, k))
  (at level 100, c at next level, right associativity) : codegen_scope.

(** ** Lemmas on strings *)

(** [String.append] does not unfold by [simpl]; these are its equations. *)
Lemma str_app_nil_l (b : string) : "" +:+ b = b.
Proof. reflexivity. Qed.

Lemma str_app_cons (x : ascii) (a b : string) : String x a +:+ b = String x (a +:+ b).
Proof. reflexivity. Qed.

Lemma str_app_assoc (a b c : string) : (a +:+ b) +:+ c = a +:+ (b +:+ c).
Proof. induction a as [|x a IH]; [done|]. by rewrite !str_app_cons, IH. Qed.

Lemma str_app_nil_r (a : string) : a +:+ "" = a.
Proof. induction a as [|x a IH]; [done|]. by rewrite str_app_cons, IH. Qed.

Lemma str_length_app (a b : string) :
  String.length (a +:+ b) = String.length a + String.length b.
Proof. induction a as [|x a IH]; [done|]. rewrite str_app_cons. simpl. lia. Qed.

#[export] Hint Rewrite str_app_nil_l str_app_cons str_app_assoc str_app_nil_r
  str_length_app : codegen_rw.

Lemma prefix_nil (s : string) : String.prefix "" s = true.
Proof. by destruct s. Qed.

Lemma prefix_char_cons (c x : ascii) (s : string) :
  String.prefix (String c "") (String x s) = bool_decide (c = x).
Proof.
  simpl. destruct (ascii_dec c x).
  - subst. rewrite prefix_nil, bool_decide_true; done.
  - rewrite bool_decide_false; done.
Qed.

(** [s.includes(c)] for a one-character pattern [c]. *)
Lemma js_includes_char_nil (c : ascii) : js_includes (String c "") "" = false.
Proof. reflexivity. Qed.

Lemma js_includes_char_cons (c x : ascii) (s : string) :
  js_includes (String c "") (String x s) = bool_decide (c = x) || js_includes (String c "") s.
Proof. unfold js_includes; fold js_includes. by rewrite prefix_char_cons. Qed.

Lemma js_includes_char_app (c : ascii) (a b : string) :
  js_includes (String c "") (a +:+ b)
  = js_includes (String c "") a || js_includes (String c "") b.
Proof.
  induction a as [|x a IH]; [done|].
  rewrite str_app_cons, !js_includes_char_cons, IH. by rewrite orb_assoc.
Qed.

#[export] Hint Rewrite js_includes_char_nil js_includes_char_cons js_includes_char_app
  : codegen_rw.

(** [s.replace(c, rep)] for a one-character pattern [c]. *)
Lemma js_replace_char_cons (c x : ascii) (rep s : string) :
  js_replace (String c "") rep (String x s)
  = if bool_decide (c = x) then rep +:+ s else String x (js_replace (String c "") rep s).
Proof. unfold js_replace; fold js_replace. by rewrite prefix_char_cons. Qed.

(** Without an occurrence, [replace] returns the string itself. *)
Lemma js_replace_char_absent (c : ascii) (rep s : string) :
  js_includes (String c "") s = false → js_replace (String c "") rep s = s.
Proof.
  induction s as [|x s IH]; [done|].
  rewrite js_includes_char_cons, js_replace_char_cons.
  intros [Hx Hs]%orb_false_iff. rewrite Hx, IH; done.
Qed.

(** The first occurrence is looked for after a prefix without one. *)
Lemma js_replace_char_app_l (c : ascii) (rep a b : string) :
  js_includes (String c "") a = false →
  js_replace (String c "") rep (a +:+ b) = a +:+ js_replace (String c "") rep b.
Proof.
  induction a as [|x a IH]; [done|].
  rewrite js_includes_char_cons. intros [Hx Ha]%orb_false_iff.
  rewrite str_app_cons, js_replace_char_cons, Hx, IH; done.
Qed.

(** The number of occurrences of a character. *)
Fixpoint count_char (c : ascii) (s : string) : nat :=
  match s with
  | EmptyString => 0
  | String x s' => (if bool_decide (c = x) then 1 else 0) + count_char c s'
  end.

Lemma count_char_app (c : ascii) (a b : string) :
  count_char c (a +:+ b) = count_char c a + count_char c b.
Proof. induction a as [|x a IH]; [done|]. rewrite str_app_cons. simpl. lia. Qed.

Lemma js_includes_count (c : ascii) (s : string) :
  js_includes (String c "") s = bool_decide (0 < count_char c s).
Proof.
  induction s as [|x s IH]; [done|].
  rewrite js_includes_char_cons, IH. simpl.
  repeat case_bool_decide; simpl; lia || done.
Qed.

(** Deleting the first occurrence of [c] removes one [c] ... *)
Lemma count_char_replace_same (c : ascii) (s : string) :
  count_char c (js_replace (String c "") "" s) = count_char c s - 1.
Proof.
  induction s as [|x s IH]; [done|].
  rewrite js_replace_char_cons. simpl. case_bool_decide as Hcx.
  - rewrite str_app_nil_l. lia.
  - simpl. rewrite bool_decide_false, IH; [lia|done].
Qed.

(** ... and no other character. *)
Lemma count_char_replace_other (c d : ascii) (s : string) :
  c ≠ d → count_char d (js_replace (String c "") "" s) = count_char d s.
Proof.
  intros Hcd. induction s as [|x s IH]; [done|].
  rewrite js_replace_char_cons. simpl. case_bool_decide as Hcx.
  - subst. rewrite str_app_nil_l. case_bool_decide; [done|lia].
  - simpl. by rewrite IH.
Qed.

Lemma str_length_repeat_char (c : ascii) (n : nat) :
  String.length (repeat_char c n) = n.
Proof. induction n; simpl; lia. Qed.

Lemma count_char_repeat_char (c d : ascii) (n : nat) :
  count_char d (repeat_char c n) = if bool_decide (d = c) then n else 0.
Proof. induction n; simpl; repeat case_bool_decide; simpl; lia. Qed.
