(* ===== verification/Schema.v ===== *)
(** * The graphql-js schema objects read by the plugin

    [field.type] is a graphql-js type: a named type wrapped in [GraphQLList]
    and [GraphQLNonNull]. Its [toString()] is the SDL text ([[User!]!]).
    The type map [schema.getTypeMap()] maps names to named types. The
    plugin tells them apart only by probing [define._values] (enums) and
    [define._fields] (object, interface and input types). Fields and
    arguments are read through [name], [type] and [description]; queries
    also through [args]. *)

From S2P Require Import Prelude Js.

(** ** Type expressions *)

Inductive gtype :=
| GNamed (name : string)
| GList (of_type : gtype)
| GNonNull (of_type : gtype).

(** [type.toString()] of graphql-js ([GraphQLList.toString] is
    ["[" + ofType + "]"], [GraphQLNonNull.toString] is [ofType + "!"]). *)
Fixpoint gtype_toString (t : gtype) : string :=
  match t with
  | GNamed n => n
  | GList t' => "[" +:+ gtype_toString t' +:+ "]"
  | GNonNull t' => gtype_toString t' +:+ "!"
  end.

(** The named type at the core of a type expression ([getNamedType]). *)
Fixpoint named_type (t : gtype) : string :=
  match t with
  | GNamed n => n
  | GList t' | GNonNull t' => named_type t'
  end.

(** Number of list wrappers and of non-null wrappers. *)
Fixpoint list_depth (t : gtype) : nat :=
  match t with
  | GNamed _ => 0
  | GList t' => S (list_depth t')
  | GNonNull t' => list_depth t'
  end.

Fixpoint nonnull_count (t : gtype) : nat :=
  match t with
  | GNamed _ => 0
  | GList t' => nonnull_count t'
  | GNonNull t' => S (nonnull_count t')
  end.

(** ** Names *)

(** A GraphQL name matches [/[_A-Za-z][_0-9A-Za-z]*/]. The plugin relies
    only on names holding none of the characters [!], [[] and []]. *)
Definition name_char (c : ascii) : bool :=
  let n := Ascii.nat_of_ascii c in
  bool_decide (n = 95) || bool_decide (48 ≤ n ≤ 57)
  || bool_decide (65 ≤ n ≤ 90) || bool_decide (97 ≤ n ≤ 122).

Fixpoint valid_name (s : string) : bool :=
  match s with
  | EmptyString => true
  | String c s' => name_char c && valid_name s'
  end.

Definition valid_gtype (t : gtype) : bool := valid_name (named_type t).

(** ** Fields, enum values and named types *)

Record field := mk_field {
  fname : string;
  ftype : gtype;
  fdescription : option string
}.

Record enum_value := mk_enum_value {
  ev_name : string;
  ev_value : jsval;
  ev_description : option string
}.

(** The graphql-js classes of named types. *)
Inductive typedef :=
| TDScalar
| TDObject (fields : list field)
| TDInterface (fields : list field)
| TDUnion (members : list string)
| TDEnum (values : list enum_value)
| TDInputObject (fields : list field).

(** [define._values]: only an enum has it, and an array is truthy even when
    empty. *)
Definition td_values (d : typedef) : option (list enum_value) :=
  match d with
  | TDEnum vs => Some vs
  | _ => None
  end.

(** [for (const fk in define._fields)]: the fields in declaration order; a
    missing [_fields] (scalar, union) iterates over nothing. *)
Definition td_fields (d : typedef) : list field :=
  match d with
  | TDObject fs | TDInterface fs | TDInputObject fs => fs
  | _ => []
  end.

(** A query field of [schema.getQueryType().getFields()], with its
    [args]. *)
Record operation := mk_operation {
  op_field : field;
  op_args : list field
}.

(** What [plugin] reads of a schema. [getQueryType()] may be undefined. *)
Record schema := mk_schema {
  types : gmap string typedef;
  query_type : option (list operation)
}.

(** The built-in scalars of the code's list [['String', 'Int', "Boolean",
    "Float", "Long"]]. *)
Definition builtin_scalars : list string :=
  ["String"; "Int"; "Boolean"; "Float"; "Long"].

(** The type map of a graphql-js schema is keyed by valid names. *)
Definition types_ok (types : gmap string typedef) : Prop :=
  map_Forall (λ k _, valid_name k = true) types.

Lemma valid_name_app (a b : string) :
  valid_name (a +:+ b) = valid_name a && valid_name b.
Proof. induction a as [|c a IH]; [done|]. simpl. rewrite IH. by rewrite andb_assoc. Qed.

(** A key of a valid type map never ends with ['!']. *)
Lemma types_ok_bang (types : gmap string typedef) (n : string) :
  types_ok types → types !! (n +:+ "!") = None.
Proof.
  intros Hok. destruct (types !! _) as [d|] eqn:Hd; [|done].
  apply Hok in Hd. rewrite valid_name_app in Hd. apply andb_prop in Hd as [_ Hd]. done.
Qed.

(** ** The sample schema of the documentation

    [type User { id: Int!, name: String, friends: [User] }] with the query
    [getUser(id: Int!): User!]; [friends] cycles back to [User]. *)
Definition user_fields : list field :=
  [mk_field "id" (GNonNull (GNamed "Int")) None;
   mk_field "name" (GNamed "String") None;
   mk_field "friends" (GList (GNamed "User")) None].

Definition sample_types : gmap string typedef :=
  <["User" := TDObject user_fields]> (<["Int" := TDScalar]> (<["String" := TDScalar]> ∅)).

Definition getUser : operation :=
  mk_operation (mk_field "getUser" (GNonNull (GNamed "User")) None)
    [mk_field "id" (GNonNull (GNamed "Int")) None].

Lemma sample_types_ok : types_ok sample_types.
Proof. unfold types_ok, sample_types. by repeat apply map_Forall_insert_2. Qed.

(** No built-in scalar ends with ['!']. *)
Lemma builtin_bang (n : string) : n +:+ "!" ∉ builtin_scalars.
Proof.
  intros Hin. assert (Hv : valid_name (n +:+ "!") = true).
  { revert Hin. generalize (n +:+ "!"). intros s Hin. unfold builtin_scalars in Hin.
    repeat (apply elem_of_cons in Hin as [->|Hin]; [done|]). by apply elem_of_nil in Hin. }
  rewrite valid_name_app, andb_false_r in Hv. discriminate.
Qed.

(** Every field of every type of the map has a valid name. *)
Definition fields_ok (types : gmap string typedef) : Prop :=
  map_Forall (λ _ d, Forall (λ g, valid_name (fname g) = true) (td_fields d)) types.

Lemma sample_fields_ok : fields_ok sample_types.
Proof. unfold fields_ok, sample_types. repeat apply map_Forall_insert_2; try apply map_Forall_empty; repeat constructor. Qed.
