(* ===== verification/TypeExpr.v ===== *)
(** * The type-string surgery of the three walkers

    Each walker reads [field.type.toString()] and strips it by hand:
    [replace('!', '')], then [startsWith('[')] for list-ness, then
    [replace('[', '')] and [replace(']', '')]. [addSubFields] also computes
    [required] as [typeString.includes('1')]. JS [replace] with a string
    pattern removes the first occurrence only. So the named type survives
    exactly when the expression has at most one list wrapper and at most
    one non-null marker ([strip_type_named_iff]). The common [[T!]!] keeps a
    ['!'] ([strip_type_required_list_of_required]). [required] ignores the
    ['!'] marker and tests for the digit ['1'] ([is_required_nonnull]). *)

From S2P Require Import Prelude Js Schema.

(** ** The code *)

(** Lines 17-19 of [addSubFields], repeated as lines 56-58 of
    [buildMockJson] and 94-95 of [buildResponseSchema]: the stripped type
    name and [isArray]/[isList]. *)
Definition strip_type (typeString : string) : string * bool :=
  let type0 := js_replace "!" "" typeString in
  (js_replace "]" "" (js_replace "[" "" type0), js_startsWith "[" type0).

(** Line 16: [const required = typeString.includes('1')]. *)
Definition is_required (typeString : string) : bool :=
  js_includes "1" typeString.

(** The stripped name and list-ness of a field's type, as the walkers
    compute them. *)
Definition field_base (f : field) : string := (strip_type (gtype_toString (ftype f))).1.
Definition field_isList (f : field) : bool := (strip_type (gtype_toString (ftype f))).2.

(** ** The shape of a type string *)

Definition brackets (k : nat) : string := repeat_char "[" k.

(** The markers after the name: one ['!'] or [']'] per wrapper, innermost
    first. *)
Fixpoint gtype_suffix (t : gtype) : string :=
  match t with
  | GNamed _ => ""
  | GList t' => gtype_suffix t' +:+ "]"
  | GNonNull t' => gtype_suffix t' +:+ "!"
  end.

Lemma gtype_toString_shape (t : gtype) :
  gtype_toString t = brackets (list_depth t) +:+ named_type t +:+ gtype_suffix t.
Proof.
  induction t as [n|t IH|t IH]; simpl.
  - by rewrite str_app_nil_r.
  - rewrite IH. autorewrite with codegen_rw. reflexivity.
  - rewrite IH. autorewrite with codegen_rw. reflexivity.
Qed.

Lemma count_char_suffix (c : ascii) (t : gtype) :
  count_char c (gtype_suffix t)
  = (if bool_decide (c = "]"%char) then list_depth t else 0)
    + (if bool_decide (c = "!"%char) then nonnull_count t else 0).
Proof.
  induction t as [n|t IH|t IH]; simpl; [by repeat case_bool_decide|..];
    rewrite count_char_app, IH; simpl; repeat case_bool_decide; subst; done || lia.
Qed.

Lemma count_char_brackets (c : ascii) (k : nat) :
  count_char c (brackets k) = if bool_decide (c = "["%char) then k else 0.
Proof. apply count_char_repeat_char. Qed.

Lemma valid_name_count (c : ascii) (s : string) :
  valid_name s = true → name_char c = false → count_char c s = 0.
Proof.
  induction s as [|x s IH]; [done|]. simpl.
  intros [Hx Hs]%andb_prop Hc. case_bool_decide; subst; [congruence|]. by apply IH.
Qed.

(** Deleting the first [c] shortens a string that has one. *)
Lemma length_replace_char (c : ascii) (s : string) :
  String.length (js_replace (String c "") "" s)
  = String.length s - (if bool_decide (0 < count_char c s) then 1 else 0).
Proof.
  induction s as [|x s IH]; [done|].
  assert (count_char c s ≤ String.length s).
  { clear IH. induction s; simpl; [lia|case_bool_decide; lia]. }
  rewrite js_replace_char_cons. simpl. destruct (decide (c = x)) as [<-|Hcx].
  - rewrite bool_decide_true by done. simpl. rewrite str_app_nil_l. lia.
  - rewrite !(bool_decide_false (c = x)) by done. simpl. rewrite IH.
    repeat case_bool_decide; lia.
Qed.

Lemma prefix_char_count (c : ascii) (s : string) :
  String.prefix (String c "") s = true → 0 < count_char c s.
Proof. destruct s as [|x s]; [done|]. rewrite prefix_char_cons. simpl. case_bool_decide; [lia|done]. Qed.

#[export] Hint Rewrite count_char_app count_char_suffix count_char_brackets : codegen_rw.

Section Surgery.
Context (t : gtype) (Hvalid : valid_gtype t = true).

Local Abbreviation n := (named_type t).
Local Abbreviation k := (list_depth t).
Local Abbreviation suf := (gtype_suffix t).
Local Abbreviation r1 := (js_replace "!" "" (gtype_suffix t)).

Lemma valid_n (c : ascii) : name_char c = false → count_char c n = 0.
Proof. apply valid_name_count, Hvalid. Qed.

(** A character count of [brackets], [n] and the suffix, by arithmetic. *)
Local Ltac count_tac :=
  rewrite ?js_includes_count;
  rewrite ?count_char_app, ?count_char_replace_other by done;
  rewrite ?count_char_suffix, ?count_char_brackets, ?valid_n by done;
  try apply bool_decide_eq_false_2; repeat case_bool_decide; simplify_eq/=; lia.

(** Step 1: the first ['!'] is in the suffix. *)
Lemma strip_step_bang :
  js_replace "!" "" (gtype_toString t) = brackets k +:+ n +:+ r1.
Proof.
  rewrite gtype_toString_shape, <- str_app_assoc, js_replace_char_app_l.
  - by rewrite str_app_assoc.
  - count_tac.
Qed.

(** Step 2: the first ['['] is the outermost list bracket, if any. *)
Lemma strip_step_open :
  js_replace "[" "" (brackets k +:+ n +:+ r1) = brackets (k - 1) +:+ n +:+ r1.
Proof.
  destruct k as [|k'] eqn:Hk.
  - apply js_replace_char_absent. count_tac.
  - change (brackets (S k')) with (String "[" (brackets k')).
    rewrite str_app_cons, js_replace_char_cons, bool_decide_true by done.
    by rewrite str_app_nil_l, Nat.sub_succ, Nat.sub_0_r.
Qed.

(** Step 3: the first [']'] is in the suffix. *)
Lemma strip_step_close (j : nat) :
  js_replace "]" "" (brackets j +:+ n +:+ r1)
  = brackets j +:+ n +:+ js_replace "]" "" r1.
Proof.
  rewrite <- str_app_assoc, js_replace_char_app_l.
  - by rewrite str_app_assoc.
  - count_tac.
Qed.

Lemma strip_isArray :
  js_startsWith "[" (brackets k +:+ n +:+ r1) = bool_decide (0 < k).
Proof.
  unfold js_startsWith. destruct k as [|k'] eqn:Hk.
  - destruct (String.prefix "[" (brackets 0 +:+ n +:+ r1)) eqn:Hp; [|done].
    apply prefix_char_count in Hp. revert Hp. count_tac.
  - change (brackets (S k')) with (String "[" (brackets k')).
    by rewrite str_app_cons, prefix_char_cons.
Qed.

Lemma length_residue :
  String.length (js_replace "]" "" r1)
  = list_depth t + nonnull_count t
    - (if bool_decide (0 < nonnull_count t) then 1 else 0)
    - (if bool_decide (0 < list_depth t) then 1 else 0).
Proof.
  assert (Hlen : ∀ t', String.length (gtype_suffix t') = list_depth t' + nonnull_count t').
  { induction t' as [|t' IH|t' IH]; simpl; [done|..];
      rewrite str_length_app, IH; simpl; lia. }
  rewrite !length_replace_char, count_char_replace_other by done.
  autorewrite with codegen_rw. simpl. rewrite Hlen, Nat.add_0_r. done.
Qed.
End Surgery.

Lemma str_length_zero (s : string) : String.length s = 0 → s = "".
Proof. by destruct s. Qed.

(** ** Theorems *)

(** The closed form of the replace chain of lines 17-19: for any type
    expression [t] over valid names, the name left is [k-1] opening
    brackets, the named type, and the wrapper markers left after deleting
    the first ['!'] and the first [']'] ([k] the number of list wrappers);
    the ['['] test holds iff [t] has a list wrapper. *)
Lemma strip_chain (t : gtype) :
  valid_gtype t = true →
  let type0 := js_replace "!" "" (gtype_toString t) in
  (js_replace "]" "" (js_replace "[" "" type0), js_startsWith "[" type0)
  = (brackets (list_depth t - 1) +:+ named_type t
       +:+ js_replace "]" "" (js_replace "!" "" (gtype_suffix t)),
     bool_decide (0 < list_depth t)).
Proof.
  intros Hv. cbv zeta.
  rewrite strip_step_bang, strip_isArray, strip_step_open, strip_step_close by done.
  done.
Qed.

(** C1. The stripped name is the named type exactly when the expression
    has at most one list wrapper and at most one non-null wrapper. *)
Theorem strip_type_named_iff (t : gtype) :
  valid_gtype t = true →
  (strip_type (gtype_toString t)).1 = named_type t
  ↔ list_depth t ≤ 1 ∧ nonnull_count t ≤ 1.
Proof.
  intros Hv. unfold strip_type. rewrite strip_chain by done. simpl.
  pose proof (length_residue t) as Hres. split.
  - intros Heq%(f_equal String.length). revert Heq.
    rewrite !str_length_app, Hres. unfold brackets. rewrite str_length_repeat_char.
    repeat case_bool_decide; lia.
  - intros [H1 H2].
    rewrite (str_length_zero (js_replace "]" "" _)) by (rewrite Hres; repeat case_bool_decide; lia).
    replace (list_depth t - 1) with 0 by lia. by rewrite str_app_nil_l, str_app_nil_r.
Qed.

(** C2. A required list of required elements, [[T!]!], the most common
    list type of a GraphQL schema, is stripped to ["T!"] and not to
    ["T"]: the second ['!'] survives, since [replace('!', '')] deletes only
    the first one. *)
Theorem strip_type_required_list_of_required (n : string) :
  valid_name n = true →
  strip_type (gtype_toString (GNonNull (GList (GNonNull (GNamed n))))) = (n +:+ "!", true).
Proof. intros Hv. unfold strip_type. rewrite strip_chain by done. reflexivity. Qed.

(** C3. The [required] column depends only on a digit ['1'] in the named
    type: the non-null marker ['!'] plays no role, so [T!] is shown as not
    required (the code tests [includes('1')] where ['!'] is meant). *)
Theorem is_required_named (t : gtype) :
  valid_gtype t = true →
  is_required (gtype_toString t) = js_includes "1" (named_type t).
Proof.
  intros Hv. unfold is_required. rewrite gtype_toString_shape, !js_includes_count.
  autorewrite with codegen_rw. f_equal. apply bool_decide_ext.
  repeat case_bool_decide; simplify_eq/=; lia.
Qed.

Corollary is_required_nonnull (t : gtype) :
  valid_gtype t = true →
  is_required (gtype_toString (GNonNull t)) = is_required (gtype_toString t).
Proof. intros Hv. rewrite !is_required_named by done. done. Qed.

(** [strip_type] in closed form: the stripped name and [isArray] of
    every type expression over valid names. *)
Theorem strip_type_correct (t : gtype) :
  valid_gtype t = true →
  strip_type (gtype_toString t)
  = (brackets (list_depth t - 1) +:+ named_type t
       +:+ js_replace "]" "" (js_replace "!" "" (gtype_suffix t)),
     bool_decide (0 < list_depth t)).
Proof. intros Hv. unfold strip_type. by apply strip_chain. Qed.

(** ** Witnesses *)
Lemma strip_type_named_iff_witness :
  (strip_type (gtype_toString (GList (GNonNull (GNamed "User"))))).1 = "User".
Proof.
  apply (proj2 (strip_type_named_iff (GList (GNonNull (GNamed "User"))) eq_refl)).
  simpl. lia.
Defined.

Lemma strip_type_required_list_of_required_witness :
  strip_type "[User!]!" = ("User!", true).
Proof. apply (strip_type_required_list_of_required "User"). reflexivity. Defined.

Lemma is_required_named_witness :
  is_required (gtype_toString (GNonNull (GNamed "String"))) = false.
Proof. rewrite (is_required_named (GNonNull (GNamed "String"))); reflexivity. Defined.
