(* ===== verification/Walk.v ===== *)
(** * The cycle guard shared by the three walkers

    [addSubFields], [buildMockJson] and [buildResponseSchema] all follow
    one discipline. [if (path.includes(type)) return; else path.push(type)]
    guards the call. A recursive call goes to a field of [types[type]]
    only when that lookup succeeds. The callee gets a copy [[...path]]
    of the extended path. Here the discipline is an interface. A
    [GuardedBody] is an open-recursion body (the recursive call is its
    argument [rec]). It uses [rec] only at a path [path ++ [t]], where [t]
    is a key of the type map and is not in [path]. For such a body the
    fuel-indexed fixpoint [walk] is total with [S (size types)] fuel,
    independent of any larger fuel, and a fixed point of the body
    ([guarded_fix_unfold]). The components prove their bodies are
    [GuardedBody] instances, and their theorems use only these three
    facts. *)

From S2P Require Import Prelude Schema.

Section Guard.
Context (types : gmap string typedef).

(** The paths the walkers pass down: no repeated name, and only names of
    the type map (a name is pushed before a child call only when
    [types[type]] is defined). *)
Definition path_ok (path : list string) : Prop :=
  NoDup path ∧ ∀ t, t ∈ path → is_Some (types !! t).

Lemma path_ok_nil : path_ok [].
Proof. split; [constructor|set_solver]. Qed.

Lemma path_ok_snoc (path : list string) (t : string) :
  path_ok path → t ∉ path → is_Some (types !! t) → path_ok (path ++ [t]).
Proof.
  intros [Hnd Hin] Ht Hs. split; [by apply NoDup_snoc|].
  intros x [Hx| ->]%elem_of_snoc; auto.
Qed.

Lemma path_ok_length (path : list string) : path_ok path → length path ≤ size types.
Proof. intros [Hnd Hin]. by apply nodup_keys_length_le. Qed.

(** The law of a guarded body. [rec] is only called on a fresh key of
    the type map pushed on the current path, so two recursive calls
    that agree there give the same result ([guarded_congr]), and
    recursive calls that all return make the body return
    ([guarded_total]). *)
Class GuardedBody {X R : Type}
    (body : (X → list string → option R) → X → list string → option R) := {
  guarded_congr : ∀ f g x path,
    (∀ y t, t ∉ path → is_Some (types !! t) → f y (path ++ [t]) = g y (path ++ [t])) →
    body f x path = body g x path;
  guarded_total : ∀ f x path,
    (∀ y t, t ∉ path → is_Some (types !! t) → is_Some (f y (path ++ [t]))) →
    is_Some (body f x path)
}.

Context {X R : Type}.

(** The body iterated [fuel] times; [None] when the fuel runs out. *)
Fixpoint walk (body : (X → list string → option R) → X → list string → option R)
    (fuel : nat) : X → list string → option R :=
  match fuel with
  | 0 => λ _ _, None
  | S fuel' => body (walk body fuel')
  end.

(** The walkers as the code runs them: with [S (size types)] fuel. *)
Definition guarded_fix body : X → list string → option R :=
  walk body (S (size types)).

Context (body : (X → list string → option R) → X → list string → option R).
Context `{!GuardedBody body}.

Lemma walk_total (fuel : nat) (x : X) (path : list string) :
  path_ok path → size types - length path < fuel → is_Some (walk body fuel x path).
Proof.
  revert x path. induction fuel as [|fuel IH]; intros x path Hok Hf; [lia|].
  simpl. apply guarded_total. intros y t Ht Hs.
  pose proof (path_ok_snoc path t Hok Ht Hs) as Hok'.
  apply IH; [done|]. pose proof (path_ok_length _ Hok'). rewrite length_snoc in *. lia.
Qed.

Lemma walk_fuel_irrel (fuel1 fuel2 : nat) (x : X) (path : list string) :
  path_ok path → size types - length path < fuel1 → size types - length path < fuel2 →
  walk body fuel1 x path = walk body fuel2 x path.
Proof.
  revert fuel2 x path. induction fuel1 as [|fuel1 IH]; intros [|fuel2] x path Hok H1 H2;
    try lia.
  simpl. apply guarded_congr. intros y t Ht Hs.
  pose proof (path_ok_snoc path t Hok Ht Hs) as Hok'.
  pose proof (path_ok_length _ Hok'). rewrite length_snoc in *.
  apply IH; [done|..]; rewrite length_snoc; lia.
Qed.

Lemma guarded_fix_total (x : X) (path : list string) :
  path_ok path → is_Some (guarded_fix body x path).
Proof. intros Hok. apply walk_total; [done|lia]. Qed.

(** The unfolding equation: on a valid path, the walker is its body with
    the walker itself as the recursive call. *)
Lemma guarded_fix_unfold (x : X) (path : list string) :
  path_ok path → guarded_fix body x path = body (guarded_fix body) x path.
Proof.
  intros Hok. unfold guarded_fix at 1. simpl. apply guarded_congr.
  intros y t Ht Hs. pose proof (path_ok_snoc path t Hok Ht Hs) as Hok'.
  pose proof (path_ok_length _ Hok'). rewrite length_snoc in *.
  apply walk_fuel_irrel; [done|..]; rewrite length_snoc; lia.
Qed.
(** Induction over the guarded recursion: a property of the walker's
    result that the body preserves, assuming it of the recursive calls
    on every fresh key, holds on every valid path. The measure is the
    number of type names not yet on the path. *)
Lemma guarded_fix_ind (P : X → list string → option R → Prop) :
  (∀ x path, path_ok path →
     (∀ y t, t ∉ path → is_Some (types !! t) →
        P y (path ++ [t]) (guarded_fix body y (path ++ [t]))) →
     P x path (body (guarded_fix body) x path)) →
  ∀ x path, path_ok path → P x path (guarded_fix body x path).
Proof.
  intros Hstep.
  assert (∀ m x path, size types - length path = m → path_ok path →
            P x path (guarded_fix body x path)) as Hm.
  { intros m. induction (lt_wf m) as [m _ IH]. intros x path Hm Hok.
    rewrite guarded_fix_unfold by done. apply Hstep; [done|].
    intros y t Ht Hs. pose proof (path_ok_snoc path t Hok Ht Hs) as Hok'.
    pose proof (path_ok_length _ Hok'). rewrite length_snoc in *.
    apply (IH (size types - length (path ++ [t]))); [|done|done].
    rewrite length_snoc. lia. }
  intros x path. by apply (Hm _ x path eq_refl).
Qed.
End Guard.

#[export] Hint Resolve path_ok_nil path_ok_snoc : codegen.
