(* ===== verification/Tree.v ===== *)
(** * The unfolding of the type graph: the abstract traversal

    The three walkers visit the same tree. It is the unfolding of the
    type graph from a field, cut where a type repeats on the path, and
    its leaves are the built-in scalars, the enums and the names missing
    from the type map. [unfold] computes this tree ([ttree]) with the
    guard discipline of [Walk]. Each walker is then a fold over the tree:
    [FieldTable.table_of], [MockJson.mock_of] and [ResponseSchema.shape_of].
    The refinement theorems of those files show that the code's
    interleaved recursion computes exactly the fold of the unfolding.
    This tree is a specification: no code builds it. *)

From S2P Require Import Prelude Js Schema TypeExpr Walk.

(** What the guards of the walkers decide about a field. *)
Inductive node_kind :=
| KCycle
| KScalar
| KUnresolved
| KEnum (vs : list enum_value)
| KObject.

Inductive ttree := TNode (f : field) (kind : node_kind) (children : list ttree).

Definition tnode_field (t : ttree) : field := let '(TNode f _ _) := t in f.
Definition tnode_kind (t : ttree) : node_kind := let '(TNode _ k _) := t in k.

(** Induction on trees with a hypothesis for every child. *)
Lemma ttree_ind' (P : ttree → Prop) :
  (∀ f k cs, Forall P cs → P (TNode f k cs)) → ∀ t, P t.
Proof.
  intros Hnode. fix IH 1. intros [f k cs]. apply Hnode.
  induction cs as [|c cs IHcs]; constructor; [apply IH|apply IHcs].
Qed.

Section Unfold.
Context (types : gmap string typedef).

(** One step of the unfolding. *)
Definition unfold_body (rec : field → list string → option ttree)
    (f : field) (path : list string) : option ttree :=
  let type := field_base f in
  if bool_decide (type ∈ path) then Some (TNode f KCycle [])
  else if bool_decide (type ∈ builtin_scalars) then Some (TNode f KScalar [])
  else match types !! type with
       | None => Some (TNode f KUnresolved [])
       | Some d =>
           match td_values d with
           | Some vs => Some (TNode f (KEnum vs) [])
           | None => cs ← mapM (λ g, rec g (path ++ [type])) (td_fields d);
                     Some (TNode f KObject cs)
           end
       end.

#[export] Instance unfold_guarded : GuardedBody types unfold_body.
Proof.
  split.
  - intros r1 r2 f path Hr. unfold unfold_body.
    case_bool_decide as Hin; [done|]. case_bool_decide; [done|].
    destruct (types !! _) as [d|] eqn:Hd; [|done]. destruct (td_values d); [done|].
    rewrite (mapM_ext_elem _ (λ g, r2 g (path ++ [field_base f]))); [done|].
    intros g _. apply Hr; [done|by rewrite Hd].
  - intros r f path Hr. unfold unfold_body.
    case_bool_decide as Hin; [done|]. case_bool_decide; [done|].
    destruct (types !! _) as [d|] eqn:Hd; [|done]. destruct (td_values d); [done|].
    destruct (mapM_is_Some_elem (λ g, r g (path ++ [field_base f])) (td_fields d))
      as [cs ->]; [|done].
    intros g _. apply Hr; [done|by rewrite Hd].
Qed.

(** The unfolding of [f] from [path]. *)
Definition unfold (f : field) (path : list string) : option ttree :=
  guarded_fix types unfold_body f path.

Lemma unfold_total (f : field) (path : list string) :
  path_ok types path → is_Some (unfold f path).
Proof. apply (guarded_fix_total types unfold_body). Qed.

(** The unfolding equation, for the refinement proofs. *)
Lemma unfold_eq (f : field) (path : list string) :
  path_ok types path → unfold f path = unfold_body unfold f path.
Proof. apply (guarded_fix_unfold types unfold_body). Qed.

(** The root of the unfolding of [f] is [f]. *)
Lemma unfold_field (f : field) (path : list string) (t : ttree) :
  path_ok types path → unfold f path = Some t → tnode_field t = f.
Proof.
  intros Hok. rewrite unfold_eq by done. unfold unfold_body.
  repeat case_match; intros; simplify_option_eq; done.
Qed.
End Unfold.
