(* ===== verification/FieldTable.v ===== *)
(** * The field table: [addSubFields] (src/index.js, lines 14-51)

    [addSubFields(deep, field, path)] pushes one Markdown row for [field]
    into the shared array [lines]. It descends into the fields of an
    object type, one level deeper. The rows are modelled as [row] records
    and [row_line] gives their text. The function returns the rows it
    pushes, in order, so its effect on [lines] is
    [lines ++ map row_line rows]. The enum branch pushes a SECOND row for
    the same field, with the enum values appended to the description
    (lines 37-41); the first row is not overwritten. [table_of] is the
    table as a fold over the unfolding tree of [Tree], and
    [addSubFields_refines] shows the code computes it. The shared state
    the code really mutates is modelled in [SharedState]. *)

From S2P Require Import Prelude Js Schema TypeExpr Walk Tree.

(** ** Rows *)

Record row := mk_row {
  r_deep : nat;
  r_name : string;
  r_type : string;
  r_required : string;
  r_desc : string
}.

(** The text pushed by lines 21, 23, 38 and 40. ['是'] is "yes" and
    ['否'] is "no"; [Array\<T\>] is escaped for Markdown. *)
Definition row_line (r : row) : string :=
  "|" +:+ js_padStart "" (r_deep r) "-" +:+ r_name r +:+ "|" +:+ r_type r
  +:+ "|" +:+ r_required r +:+ "|" +:+ r_desc r +:+ "|".

(** The row of [field] at depth [deep], its description followed by
    [desc_suffix]: lines 15-24 (with [desc_suffix = ""]) and 37-41 (with
    the enum values). A list is shown as [Array\<T\>] and never as
    required. *)
Definition field_row (deep : nat) (field : field) (desc_suffix : string) : row :=
  let typeString := gtype_toString (ftype field) in
  let required := is_required typeString in
  let '(type, isArray) := strip_type typeString in
  let desc := js_or (fdescription field) "" +:+ desc_suffix in
  if isArray
  then mk_row deep (fname field) ("Array\<" +:+ type +:+ "\>") "否" desc
  else mk_row deep (fname field) type (if required then "是" else "否") desc.

(** Line 36: [`${e.value}: ${e.name} ${e.description || ''}`] joined by
    [';']. *)
Definition enum_desc (vs : list enum_value) : string :=
  js_join ";" (map (λ e, js_to_string (ev_value e) +:+ ": " +:+ ev_name e +:+ " "
                         +:+ js_or (ev_description e) "") vs).

(** ** The walker *)

Section AddSubFields.
Context (types : gmap string typedef).

(** One call of [addSubFields], with the recursive call [rec]. The
    argument is the pair [(deep, field)]. *)
Definition addSubFields_body
    (rec : nat * field → list string → option (list row))
    (x : nat * field) (path : list string) : option (list row) :=
  let '(deep, field) := x in
  let '(type, isArray) := strip_type (gtype_toString (ftype field)) in
  let row := field_row deep field "" in
  if js_array_includes type path then Some [row]
  else
    let path' := path ++ [type] in
    if js_array_includes type builtin_scalars then Some [row]
    else match types !! type with
         | None => Some [row]
         | Some define =>
             match td_values define with
             | Some vs => Some [row; field_row deep field (enum_desc vs)]
             | None =>
                 rows ← mapM (λ f, rec (S deep, f) path') (td_fields define);
                 Some (row :: concat rows)
             end
         end.

#[export] Instance addSubFields_guarded : GuardedBody types addSubFields_body.
Proof.
  split.
  - intros f g [deep fld] path Hfg. unfold addSubFields_body.
    destruct (strip_type _) as [type isArray].
    unfold js_array_includes. case_bool_decide as Hin; [done|].
    case_bool_decide; [done|]. destruct (types !! type) as [d|] eqn:Hd; [|done].
    destruct (td_values d); [done|].
    rewrite (mapM_ext_elem _ (λ h, g (S deep, h) (path ++ [type]))); [done|].
    intros h _. apply Hfg; [done|by rewrite Hd].
  - intros f [deep fld] path Hf. unfold addSubFields_body.
    destruct (strip_type _) as [type isArray].
    unfold js_array_includes. case_bool_decide as Hin; [done|].
    case_bool_decide; [done|]. destruct (types !! type) as [d|] eqn:Hd; [|done].
    destruct (td_values d); [done|].
    destruct (mapM_is_Some_elem (λ h, f (S deep, h) (path ++ [type])) (td_fields d))
      as [rows ->]; [|done].
    intros h _. apply Hf; [done|by rewrite Hd].
Qed.

(** [addSubFields(deep, field, path)]: the rows it pushes. *)
Definition addSubFields (deep : nat) (field : field) (path : list string)
    : option (list row) :=
  guarded_fix types addSubFields_body (deep, field) path.
End AddSubFields.

(** ** Behaviour on each branch *)

Section Theorems.
Context (types : gmap string typedef).

(** Unfold one call on a valid path and decide its guards. *)
Local Ltac step_tac :=
  unfold addSubFields; rewrite (guarded_fix_unfold types (addSubFields_body types)) by done;
  unfold addSubFields_body, field_base in *;
  destruct (strip_type _) as [type isArray]; simpl in *;
  unfold js_array_includes; rewrite ?bool_decide_true, ?bool_decide_false by done.

(** C11. Cycle guard: when the field's type is already on the path, the
    call pushes exactly the field's own row and nothing below it. *)
Theorem addSubFields_cycle (deep : nat) (f : field) (path : list string) :
  field_base f ∈ path →
  addSubFields types deep f path = Some [field_row deep f ""].
Proof.
  intros Hin. unfold addSubFields, guarded_fix. cbn [walk].
  unfold addSubFields_body, field_base in *. destruct (strip_type _) as [type isArray].
  unfold js_array_includes. by rewrite bool_decide_true.
Qed.

(** A built-in scalar or a name missing from the type map is a leaf:
    one row, no error. *)
Lemma addSubFields_leaf (deep : nat) (f : field) (path : list string) :
  path_ok types path → field_base f ∉ path →
  field_base f ∈ builtin_scalars ∨ types !! field_base f = None →
  addSubFields types deep f path = Some [field_row deep f ""].
Proof.
  intros Hok Hnin Hleaf. step_tac.
  destruct Hleaf as [Hb | Hty]; [by rewrite bool_decide_true|rewrite Hty].
  by case_bool_decide.
Qed.

(** C19. Enum: the field's row is pushed, then a second row for the same
    field whose description ends with the enum values. *)
Theorem addSubFields_enum (deep : nat) (f : field) (path : list string)
    (vs : list enum_value) :
  path_ok types path → field_base f ∉ path → field_base f ∉ builtin_scalars →
  types !! field_base f = Some (TDEnum vs) →
  addSubFields types deep f path
  = Some [field_row deep f ""; field_row deep f (enum_desc vs)].
Proof. intros Hok Hnin Hnb Hd. step_tac. by rewrite Hd. Qed.

(** Object, interface or input type: the field's row, then the rows of
    every field of the type, one level deeper and with the type pushed
    on a copy of the path, in declaration order. *)
Lemma addSubFields_object (deep : nat) (f : field) (path : list string) (d : typedef) :
  path_ok types path → field_base f ∉ path → field_base f ∉ builtin_scalars →
  types !! field_base f = Some d → td_values d = None →
  addSubFields types deep f path
  = rows ← mapM (λ g, addSubFields types (S deep) g (path ++ [field_base f])) (td_fields d);
    Some (field_row deep f "" :: concat rows).
Proof. intros Hok Hnin Hnb Hd Hv. step_tac. by rewrite Hd, Hv. Qed.

Lemma r_deep_field_row (deep : nat) (f : field) (s : string) :
  r_deep (field_row deep f s) = deep.
Proof. unfold field_row. destruct (strip_type _) as [? []]; done. Qed.

(** C4. Termination: on every valid path (in particular the empty path
    the plugin starts from) [addSubFields] returns, with [S (size types)]
    fuel, and the first row it pushes is the field's own row. *)
Theorem addSubFields_total (deep : nat) (f : field) (path : list string) :
  path_ok types path →
  ∃ rows, addSubFields types deep f path = Some (field_row deep f "" :: rows).
Proof.
  intros Hok. destruct (guarded_fix_total types (addSubFields_body types) (deep, f) path Hok)
    as [rows Hrows].
  unfold addSubFields. rewrite Hrows.
  rewrite (guarded_fix_unfold types (addSubFields_body types)) in Hrows by done.
  unfold addSubFields_body in Hrows. destruct (strip_type _) as [type isArray].
  repeat case_match; simplify_option_eq; eauto.
Qed.

(** A row pushed by [addSubFields(deep, f, path)] is at depth at least
    [deep] and at most [deep] plus the number of type names not yet on
    the path. *)
Lemma addSubFields_depth_range (deep : nat) (f : field) (path : list string)
    (rows : list row) :
  path_ok types path → addSubFields types deep f path = Some rows →
  Forall (λ r, deep ≤ r_deep r ≤ deep + (size types - length path)) rows.
Proof.
  intros Hok. revert rows. unfold addSubFields.
  change deep with (fst (deep, f)) at 2 3. generalize (deep, f) as x.
  intros x. revert x path Hok.
  apply (guarded_fix_ind types (addSubFields_body types)
           (λ x path res, ∀ rows, res = Some rows →
              Forall (λ r, x.1 ≤ r_deep r ≤ x.1 + (size types - length path)) rows)).
  intros [d g] path Hok IH rows. unfold addSubFields_body. cbn [fst].
  destruct (strip_type _) as [type isArray]. unfold js_array_includes.
  assert (Hrow : ∀ s, d ≤ r_deep (field_row d g s) ≤ d + (size types - length path))
    by (intros; rewrite r_deep_field_row; lia).
  case_bool_decide as Hin; [intros; simplify_eq; repeat (econstructor; [apply Hrow|]); constructor|].
  case_bool_decide as Hb; [intros; simplify_eq; repeat (econstructor; [apply Hrow|]); constructor|].
  destruct (types !! type) as [dd|] eqn:Hd; [|intros; simplify_eq; repeat (econstructor; [apply Hrow|]); constructor].
  destruct (td_values dd) as [vs|]; [intros; simplify_eq; repeat (econstructor; [apply Hrow|]); constructor|].
  destruct (mapM _ _) as [rowss|] eqn:Hmap; simpl; [|done].
  intros ?; simplify_eq. constructor; [done|].
  apply Forall_concat, Forall_forall. intros rs Hrs.
  apply mapM_Some in Hmap. destruct (Forall2_elem_r _ _ _ _ Hmap Hrs) as (h & _ & Hh).
  assert (Hs : is_Some (types !! type)) by (by rewrite Hd).
  specialize (IH (S d, h) type Hin Hs _ Hh).
  pose proof (path_ok_length _ _ (path_ok_snoc _ _ _ Hok Hin Hs)).
  rewrite length_snoc in *. simpl in IH.
  eapply Forall_impl; [exact IH|]. simpl. lia.
Qed.

Lemma r_name_field_row (deep : nat) (f : field) (s : string) :
  r_name (field_row deep f s) = fname f.
Proof. unfold field_row. destruct (strip_type _) as [? []]; done. Qed.

Local Ltac own_rows_tac Hleaf Hown :=
  intros [= <-]; apply Hleaf; [done|repeat constructor; apply Hown].

(** C31. Indentation: the rows of [addSubFields(deep, f, path)] are the
    field's own rows (its row, and the enum row after it), at depth
    [deep], followed by the rows of its sub-fields, which are all
    strictly deeper and at most [deep] plus the number of type names not
    yet on the path: the children are called at [deep + 1]. *)
Theorem addSubFields_depth_bound (deep : nat) (f : field) (path : list string)
    (rows : list row) :
  path_ok types path → addSubFields types deep f path = Some rows →
  ∃ own desc, rows = own ++ desc ∧ own ≠ []
    ∧ Forall (λ r, r_deep r = deep ∧ r_name r = fname f) own
    ∧ Forall (λ r, S deep ≤ r_deep r ≤ deep + (size types - length path)) desc.
Proof.
  intros Hok. assert (Hown : ∀ s, r_deep (field_row deep f s) = deep ∧
                                  r_name (field_row deep f s) = fname f)
    by (intros s; by rewrite r_deep_field_row, r_name_field_row).
  assert (Hleaf : ∀ own, own ≠ [] → Forall (λ r, r_deep r = deep ∧ r_name r = fname f) own →
            ∃ own' desc, own = own' ++ desc ∧ own' ≠ []
              ∧ Forall (λ r, r_deep r = deep ∧ r_name r = fname f) own'
              ∧ Forall (λ r, S deep ≤ r_deep r ≤ deep + (size types - length path)) desc)
    by (intros own ? ?; exists own, []; rewrite app_nil_r; by split_and!).
  step_tac. case_bool_decide as Hin; [own_rows_tac Hleaf Hown|].
  case_bool_decide; [own_rows_tac Hleaf Hown|].
  destruct (types !! type) as [d|] eqn:Hd; [|own_rows_tac Hleaf Hown].
  destruct (td_values d); [own_rows_tac Hleaf Hown|].
  destruct (mapM _ _) as [rowss|] eqn:Hmap; simpl; [|done]. intros [= <-].
  exists [field_row deep f ""], (concat rowss). split_and!; [done|done|repeat constructor; apply Hown|].
  apply Forall_concat, Forall_forall. intros rs Hrs.
  apply mapM_Some in Hmap. destruct (Forall2_elem_r _ _ _ _ Hmap Hrs) as (h & _ & Hh).
  assert (Hok' : path_ok types (path ++ [type])) by (apply path_ok_snoc; [done..|by rewrite Hd]).
  pose proof (path_ok_length _ _ Hok'). rewrite length_snoc in *.
  eapply Forall_impl; [exact (addSubFields_depth_range (S deep) h _ rs Hok' Hh)|].
  simpl. rewrite length_snoc. lia.
Qed.

(** C33. A list field is shown as [Array\<T\>] and never as required,
    whatever its non-null markers. *)
Theorem field_row_list (deep : nat) (f : field) (s : string) :
  field_isList f = true →
  r_type (field_row deep f s) = "Array\<" +:+ field_base f +:+ "\>"
  ∧ r_required (field_row deep f s) = "否".
Proof.
  unfold field_isList, field_base, field_row. destruct (strip_type _) as [type []]; done.
Qed.

(** C16. A field of type [[T!]!] is a leaf of the table, whatever [T]
    is. Its type is shown as [Array\<T!\>], and the fields of an object
    [T] are never listed: the stripped name ["T!"] is no key of the
    type map. *)
Theorem addSubFields_required_list_of_required (deep : nat) (nm n : string)
    (d : option string) (path : list string) :
  types_ok types → valid_name n = true → path_ok types path →
  addSubFields types deep (mk_field nm (GNonNull (GList (GNonNull (GNamed n)))) d) path
  = Some [mk_row deep nm ("Array\<" +:+ n +:+ "!\>") "否" (js_or d "")].
Proof.
  intros Htypes Hn Hok. set (f := mk_field nm _ d).
  assert (Hbase : field_base f = n +:+ "!").
  { unfold field_base, f. cbn [ftype]. by rewrite strip_type_correct. }
  assert (Hrow : field_row deep f "" = mk_row deep nm ("Array\<" +:+ n +:+ "!\>") "否" (js_or d "")).
  { unfold field_row, f. cbn [ftype fname fdescription].
    rewrite strip_type_correct by done. simpl.
    by rewrite str_app_nil_r, !str_app_assoc. }
  assert (Hnone : types !! field_base f = None) by (rewrite Hbase; by apply types_ok_bang).
  rewrite <- Hrow. apply addSubFields_leaf; [done| |by right].
  intros Hin. destruct Hok as [_ Hdom]. destruct (Hdom _ Hin) as [? Hs]. congruence.
Qed.
End Theorems.

(** The type cell holds no ['|']: the surgery only deletes characters of
    a type expression over valid names. *)
Lemma count_pipe_type (t : gtype) :
  valid_gtype t = true → count_char "|" (strip_type (gtype_toString t)).1 = 0.
Proof.
  intros Hv. unfold strip_type. cbn [fst].
  rewrite !count_char_replace_other, gtype_toString_shape by done.
  autorewrite with codegen_rw. rewrite valid_name_count by done. done.
Qed.

(** C28. Every row is a Markdown table row of four cells exactly when its
    description has no ['|']: the line has five ['|'] plus those of the
    description. The description (and the enum values appended to it)
    is interpolated without escaping, so a ['|'] in it adds cells. *)
Theorem row_line_pipes (deep : nat) (f : field) (suffix : string) :
  valid_name (fname f) = true → valid_gtype (ftype f) = true →
  count_char "|" (row_line (field_row deep f suffix))
  = 5 + count_char "|" (js_or (fdescription f) "" +:+ suffix).
Proof.
  intros Hn Ht. pose proof (count_pipe_type _ Ht) as Hty.
  unfold row_line, field_row, js_padStart.
  destruct (strip_type _) as [type isArray]. cbn [fst] in Hty.
  destruct isArray; [|destruct (is_required _)]; cbn [r_deep r_name r_type r_required r_desc];
    rewrite !count_char_app, count_char_repeat_char, (valid_name_count _ _ Hn), Hty
      by reflexivity; simpl; lia.
Qed.


(** ** The table as a fold over the unfolding *)

(** The rows of an unfolding tree at depth [d]: the field's row, a second
    row with the enum values for an enum, the rows of the children one
    level deeper for an object. *)
Fixpoint table_of (d : nat) (t : ttree) : list row :=
  match t with
  | TNode f k cs =>
      match k with
      | KEnum vs => [field_row d f ""; field_row d f (enum_desc vs)]
      | KObject => field_row d f "" :: concat (map (table_of (S d)) cs)
      | _ => [field_row d f ""]
      end
  end.

(** C6. Refinement: [addSubFields] computes the rows of the unfolding of
    the field, on every valid path. *)
Theorem addSubFields_refines (types : gmap string typedef) (deep : nat) (f : field)
    (path : list string) :
  path_ok types path → addSubFields types deep f path = table_of deep <$> unfold types f path.
Proof.
  unfold addSubFields. change deep with (deep, f).1 at 2. change f with (deep, f).2 at 3.
  generalize (deep, f) as x. intros x. revert x path.
  apply (guarded_fix_ind types (addSubFields_body types)
           (λ x path res, res = table_of x.1 <$> unfold types x.2 path)).
  intros [d g] path Hok IH. set (F := guarded_fix _ _) in *. clearbody F.
  rewrite unfold_eq by done. unfold addSubFields_body, unfold_body, field_base.
  cbn [fst snd]. destruct (strip_type _) as [type isArray]. cbn [fst].
  unfold js_array_includes. case_bool_decide as Hin; [done|].
  case_bool_decide; [done|]. destruct (types !! type) as [dd|] eqn:Hd; [|done].
  destruct (td_values dd); [done|].
  rewrite (mapM_ext_elem _ (λ h, table_of (S d) <$> unfold types h (path ++ [type]))).
  - rewrite mapM_fmap_out. by destruct (mapM _ _).
  - intros h _. apply (IH (S d, h)); [done|by rewrite Hd].
Qed.

(** ** Witnesses *)

Lemma addSubFields_cycle_witness :
  addSubFields sample_types 1 (mk_field "friends" (GList (GNamed "User")) None) ["User"]
  = Some [field_row 1 (mk_field "friends" (GList (GNamed "User")) None) ""].
Proof. apply addSubFields_cycle. by left. Defined.

Lemma addSubFields_enum_witness :
  addSubFields (<["Color" := TDEnum [mk_enum_value "RED" (JString "RED") None]]> ∅)
    0 (mk_field "c" (GNamed "Color") None) []
  = Some [field_row 0 (mk_field "c" (GNamed "Color") None) "";
          field_row 0 (mk_field "c" (GNamed "Color") None) "RED: RED "].
Proof.
  apply (addSubFields_enum _ 0 (mk_field "c" (GNamed "Color") None) []
           [mk_enum_value "RED" (JString "RED") None]); [apply path_ok_nil|set_solver|..].
  - vm_compute. intros Hin. repeat (apply elem_of_cons in Hin as [Hin|Hin]; [discriminate|]).
    by apply elem_of_nil in Hin.
  - reflexivity.
Defined.

Lemma addSubFields_total_witness :
  ∃ rows, addSubFields sample_types 0 (op_field getUser) []
          = Some (field_row 0 (op_field getUser) "" :: rows).
Proof. apply addSubFields_total, path_ok_nil. Defined.

Lemma addSubFields_depth_bound_witness :
  ∃ own desc, default [] (addSubFields sample_types 0 (op_field getUser) []) = own ++ desc
    ∧ own ≠ []
    ∧ Forall (λ r, r_deep r = 0 ∧ r_name r = fname (op_field getUser)) own
    ∧ Forall (λ r, 1 ≤ r_deep r ≤ 0 + (size sample_types - length (@nil string))) desc.
Proof.
  apply (addSubFields_depth_bound sample_types 0 (op_field getUser) []);
    [apply path_ok_nil|vm_compute; reflexivity].
Defined.

Lemma addSubFields_refines_witness :
  addSubFields sample_types 0 (op_field getUser) []
  = table_of 0 <$> unfold sample_types (op_field getUser) [].
Proof. apply addSubFields_refines, path_ok_nil. Defined.

Lemma field_row_list_witness :
  r_type (field_row 1 (mk_field "friends" (GList (GNamed "User")) None) "") = "Array\<User\>"
  ∧ r_required (field_row 1 (mk_field "friends" (GList (GNamed "User")) None) "") = "否".
Proof. apply (field_row_list 1 (mk_field "friends" (GList (GNamed "User")) None) ""). reflexivity. Defined.

Lemma addSubFields_required_list_of_required_witness :
  addSubFields sample_types 1 (mk_field "users" (GNonNull (GList (GNonNull (GNamed "User")))) None) []
  = Some [mk_row 1 "users" "Array\<User!\>" "否" ""].
Proof.
  apply (addSubFields_required_list_of_required sample_types 1 "users" "User" None []);
    [apply sample_types_ok|reflexivity|apply path_ok_nil].
Defined.

Lemma row_line_pipes_witness :
  count_char "|" (row_line (field_row 1 (mk_field "id" (GNamed "Int") (Some "a|b")) "")) = 6.
Proof. rewrite (row_line_pipes 1 (mk_field "id" (GNamed "Int") (Some "a|b")) ""); reflexivity. Defined.
