(* ===== verification/SharedState.v ===== *)
(** * [addSubFields] on the shared state of the code

    [addSubFields] does not return its rows: it pushes them into the
    array [lines] that all calls share (lines 21, 23, 38, 40), and it
    pushes its type onto the array [path] it receives (line 30). The
    array is the caller's copy [[...path]] (line 46), or a fresh [[]]
    (lines 180 and 186). This file models that state: a store with the
    shared [lines] and a heap of path arrays, a state monad over it, and
    [addSubFields_st], the code's statement sequence with its fuel. The
    refinement theorem shows that the functional [FieldTable.addSubFields]
    describes this code exactly: the lines grow by the rows' text, the
    callee's array gets the type pushed, and no other array changes, so a
    sibling never sees the types a call pushed. *)

From S2P Require Import Prelude Js Schema TypeExpr Walk FieldTable.

(** ** The store and its monad *)

Record store := mk_store {
  st_lines : list string;
  st_heap : gmap positive (list string);
  st_next : positive
}.

(** Every array of the heap was allocated before [st_next]. *)
Definition heap_ok (σ : store) : Prop :=
  ∀ c, is_Some (st_heap σ !! c) → (c < st_next σ)%positive.

Definition M (A : Type) : Type := store → option (A * store).

Definition st_ret {A} (x : A) : M A := λ σ, Some (x, σ).

Definition st_bind {A B} (m : M A) (k : A → M B) : M B :=
  λ σ, match m σ with Some (x, σ') => k x σ' | None => None end.

Declare Scope store_scope.
Delimit Scope store_scope with st.
Notation "x <<- m ;; k" := (st_bind m (λ x, k))
  (at level 100, m at next level, right associativity) : store_scope.
Local Open Scope store_scope.

(** [lines.push(l)]. *)
Definition push_line (l : string) : M unit :=
  λ σ, Some (tt, mk_store (st_lines σ ++ [l]) (st_heap σ) (st_next σ)).

(** Reading the array [a]; a dangling reference is stuck. *)
Definition arr_read (a : positive) : M (list string) :=
  λ σ, l ← st_heap σ !! a; Some (l, σ).

(** [a.push(x)]. *)
Definition arr_push (a : positive) (x : string) : M unit :=
  λ σ, l ← st_heap σ !! a;
       Some (tt, mk_store (st_lines σ) (<[a := l ++ [x]]> (st_heap σ)) (st_next σ)).

(** A new array holding [l]: the spread copy [[...path]] or a literal. *)
Definition arr_alloc (l : list string) : M positive :=
  λ σ, Some (st_next σ, mk_store (st_lines σ) (<[st_next σ := l]> (st_heap σ))
                                 (Pos.succ (st_next σ))).

(** [for (const x of l) f(x)]. *)
Fixpoint for_each {A} (f : A → M unit) (l : list A) : M unit :=
  match l with
  | [] => st_ret tt
  | x :: l' => _ <<- f x ;; for_each f l'
  end.

(** ** The code *)

Section AddSubFieldsSt.
Context (types : gmap string typedef).

(** Lines 14-51 statement by statement, on the array [a]; [fuel] bounds
    the recursion depth. *)
Fixpoint addSubFields_st (fuel : nat) (deep : nat) (field : field) (a : positive) : M unit :=
  match fuel with
  | 0 => λ _, None
  | S fuel' =>
      let '(type, _) := strip_type (gtype_toString (ftype field)) in
      _ <<- push_line (row_line (field_row deep field "")) ;;
      path <<- arr_read a ;;
      if js_array_includes type path then st_ret tt
      else
        _ <<- arr_push a type ;;
        if negb (js_array_includes type builtin_scalars) then
          match types !! type with
          | Some define =>
              match td_values define with
              | Some vs => push_line (row_line (field_row deep field (enum_desc vs)))
              | None =>
                  for_each (λ g, p <<- arr_read a ;; b <<- arr_alloc p ;;
                                 addSubFields_st fuel' (S deep) g b) (td_fields define)
              end
          | None => st_ret tt
          end
        else st_ret tt
  end.
End AddSubFieldsSt.

(** Running a bind whose first part has run. *)
Lemma st_bind_run {A B} (m : M A) (k : A → M B) (σ : store) (x : A) (σ1 : store) :
  m σ = Some (x, σ1) → st_bind m k σ = k x σ1.
Proof. intros Hm. unfold st_bind. by rewrite Hm. Qed.

(** ** Frames *)

(** No array but [a] changed from [σ] to [σ']. *)
Definition frame_except (a : positive) (σ σ' : store) : Prop :=
  ∀ c, c ≠ a → is_Some (st_heap σ !! c) → st_heap σ' !! c = st_heap σ !! c.

(** No array of [σ] changed. *)
Definition frame_all (σ σ' : store) : Prop :=
  ∀ c, is_Some (st_heap σ !! c) → st_heap σ' !! c = st_heap σ !! c.

Lemma heap_ok_fresh (σ : store) : heap_ok σ → st_heap σ !! st_next σ = None.
Proof. intros Hok. apply eq_None_not_Some. intros Hs%Hok. lia. Qed.

Lemma heap_ok_ne (σ : store) (c : positive) :
  heap_ok σ → is_Some (st_heap σ !! c) → c ≠ st_next σ.
Proof. intros Hok Hc ->. apply Hok in Hc. lia. Qed.

(** The copy [[...path]] of line 46: a fresh array that holds [l]. *)
Lemma arr_alloc_spec (σ : store) (l : list string) :
  heap_ok σ →
  let σ' := mk_store (st_lines σ) (<[st_next σ := l]> (st_heap σ)) (Pos.succ (st_next σ)) in
  arr_alloc l σ = Some (st_next σ, σ') ∧ heap_ok σ'
  ∧ st_heap σ' !! st_next σ = Some l ∧ frame_all σ σ'.
Proof.
  intros Hok σ'. split_and!; [done| | |].
  - intros c. cbn. destruct (decide (c = st_next σ)) as [->|Hc]; [lia|].
    rewrite lookup_insert_ne by done. intros Hs%Hok. lia.
  - cbn. by rewrite lookup_insert_eq.
  - intros c Hc. cbn. rewrite lookup_insert_ne; [done|]. by apply not_eq_sym, heap_ok_ne.
Qed.

(** [lines.push(l)] touches no array. *)
Lemma push_line_spec (σ : store) (l : string) :
  let σ' := mk_store (st_lines σ ++ [l]) (st_heap σ) (st_next σ) in
  push_line l σ = Some (tt, σ') ∧ st_heap σ' = st_heap σ ∧ st_next σ' = st_next σ.
Proof. done. Qed.

(** [a.push(x)] on an allocated array changes that array only. *)
Lemma arr_push_spec (σ : store) (a : positive) (l : list string) (x : string) :
  heap_ok σ → st_heap σ !! a = Some l →
  let σ' := mk_store (st_lines σ) (<[a := l ++ [x]]> (st_heap σ)) (st_next σ) in
  arr_push a x σ = Some (tt, σ') ∧ heap_ok σ'
  ∧ st_heap σ' !! a = Some (l ++ [x]) ∧ frame_except a σ σ'.
Proof.
  intros Hok Ha σ'. unfold arr_push. rewrite Ha. split_and!; [done| | |].
  - intros c. cbn. destruct (decide (c = a)) as [->|Hc]; [intros _; apply Hok; by rewrite Ha|].
    rewrite lookup_insert_ne by done. apply Hok.
  - cbn. by rewrite lookup_insert_eq.
  - intros c Hc _. cbn. by rewrite lookup_insert_ne.
Qed.

Section Loop.
Context (types : gmap string typedef) (fuel deep : nat) (a : positive) (path' : list string).

(** What one child call of the loop does, on a fresh copy [b]. *)
Definition child_ok (g : field) : Prop :=
  ∀ b σ0 rows, heap_ok σ0 → st_heap σ0 !! b = Some path' →
    addSubFields types (S deep) g path' = Some rows →
    ∃ σ1, addSubFields_st types fuel (S deep) g b σ0 = Some (tt, σ1)
      ∧ st_lines σ1 = st_lines σ0 ++ map row_line rows
      ∧ frame_except b σ0 σ1 ∧ heap_ok σ1.

(** Lines 44-47: the loop over the fields appends the rows of every field
    in order and changes no array the caller can see. *)
Lemma loop_refines (fs : list field) (σ : store) (rowss : list (list row)) :
  Forall child_ok fs → heap_ok σ → st_heap σ !! a = Some path' →
  mapM (λ g, addSubFields types (S deep) g path') fs = Some rowss →
  ∃ σ', for_each (λ g, p <<- arr_read a ;; b <<- arr_alloc p ;;
                       addSubFields_st types fuel (S deep) g b) fs σ = Some (tt, σ')
    ∧ st_lines σ' = st_lines σ ++ map row_line (concat rowss)
    ∧ frame_all σ σ' ∧ heap_ok σ'.
Proof.
  intros Hfs. revert σ rowss. induction Hfs as [|g fs Hg _ IH]; intros σ rowss Hok Ha.
  { intros [= <-]. exists σ. rewrite app_nil_r. by split_and!. }
  cbn [mapM]. destruct (addSubFields _ _ g _) as [r|] eqn:Hr; [|done].
  destruct (mapM _ fs) as [rs|] eqn:Hrs; simpl; [|done]. intros [= <-].
  destruct (arr_alloc_spec σ path' Hok) as (Halloc & Hok1 & Hb & Hfr1).
  destruct (Hg _ _ _ Hok1 Hb Hr) as (σ1 & Hrun1 & Hl1 & Hfr2 & Hok2).
  assert (Hab : a ≠ st_next σ) by (apply heap_ok_ne; [done|by rewrite Ha]).
  assert (Ha1 : st_heap σ1 !! a = Some path').
  { rewrite Hfr2 by (done || (rewrite Hfr1; by rewrite ?Ha)). rewrite Hfr1; by rewrite ?Ha. }
  destruct (IH σ1 rs Hok2 Ha1 eq_refl) as (σ' & Hrun & Hl & Hfr & Hok').
  exists σ'. cbn [for_each]. rewrite (st_bind_run _ _ σ tt σ1).
  2:{ rewrite (st_bind_run _ _ σ path' σ) by (unfold arr_read; by rewrite Ha).
      by rewrite (st_bind_run _ _ σ _ _ Halloc). }
  rewrite Hrun. split_and!; [done| | |done].
  - rewrite Hl, Hl1. simpl. by rewrite map_app, app_assoc.
  - intros c Hc. assert (c ≠ st_next σ) by by apply heap_ok_ne.
    assert (Hc1 : st_heap σ1 !! c = st_heap σ !! c).
    { rewrite Hfr2; [by apply Hfr1|done|by rewrite Hfr1]. }
    rewrite Hfr; [done|by rewrite Hc1].
Qed.
End Loop.

(** ** Refinement *)

Section Refinement.
Context (types : gmap string typedef).

(** Frames compose. *)
Lemma frame_except_trans (a : positive) (σ1 σ2 σ3 : store) :
  frame_except a σ1 σ2 → frame_all σ2 σ3 → frame_except a σ1 σ3.
Proof. intros H12 H23 c Hc Hs. rewrite H23; [by apply H12|by rewrite H12]. Qed.

(** The code's [addSubFields], run on the shared [lines] and on the
    path array [a] of the heap, is described by the functional model: on
    every valid path and with fuel above the number of type names not on
    the path, it returns, [lines] grows by the text of the rows of
    [FieldTable.addSubFields] in order, [a] gets the field's type pushed
    unless the type closes a cycle, and no other array of the heap
    changes: the copies [[...path]] keep siblings apart. *)
Lemma addSubFields_st_spec (fuel deep : nat) (f : field) (a : positive) (σ : store)
    (path : list string) (rows : list row) :
  path_ok types path → size types - length path < fuel → heap_ok σ →
  st_heap σ !! a = Some path → addSubFields types deep f path = Some rows →
  ∃ σ', addSubFields_st types fuel deep f a σ = Some (tt, σ')
    ∧ st_lines σ' = st_lines σ ++ map row_line rows
    ∧ st_heap σ' !! a
      = Some (if bool_decide (field_base f ∈ path) then path else path ++ [field_base f])
    ∧ frame_except a σ σ' ∧ heap_ok σ'.
Proof.
  revert deep f a σ path rows.
  induction fuel as [|fuel IH]; intros deep f a σ path rows Hok Hfuel Hheap Ha; [lia|].
  unfold addSubFields. rewrite (guarded_fix_unfold types (addSubFields_body types)) by done.
  unfold addSubFields_body, field_base. cbn [addSubFields_st].
  destruct (strip_type _) as [type isArray]. cbn [fst].
  destruct (push_line_spec σ (row_line (field_row deep f ""))) as (Hp & Hph & Hpn).
  set (σp := mk_store _ _ _) in *. rewrite (st_bind_run _ _ σ tt σp Hp).
  rewrite (st_bind_run _ _ σp path σp) by (unfold arr_read; by rewrite Hph, Ha).
  assert (Hpok : heap_ok σp) by (intros c; rewrite Hph, Hpn; apply Hheap).
  unfold js_array_includes. case_bool_decide as Hin.
  { intros [= <-]. exists σp. split_and!; [done..| |done]. intros c _ _. by rewrite Hph. }
  assert (Hpa : st_heap σp !! a = Some path) by by rewrite Hph.
  destruct (arr_push_spec σp a path type Hpok Hpa) as (Hq & Hqok & Hqa & Hqfr).
  set (σq := mk_store (st_lines σp) (<[a:=path ++ [type]]> (st_heap σp)) (st_next σp)) in *. rewrite (st_bind_run _ _ σp tt σq Hq).
  assert (Hfr : frame_except a σ σq) by (intros c Hc Hs; rewrite Hqfr; by rewrite ?Hph).
  case_bool_decide as Hb; cbn [negb].
  { intros [= <-]. by exists σq. }
  destruct (types !! type) as [d|] eqn:Hd; [|intros [= <-]; by exists σq].
  destruct (td_values d) as [vs|].
  { intros [= <-]. eexists. split_and!; [reflexivity|cbn; by rewrite <- app_assoc|done..]. }
  destruct (mapM _ _) as [rowss|] eqn:Hsub; simpl; [|done]. intros [= <-].
  destruct (loop_refines types fuel deep a (path ++ [type]) (td_fields d) σq rowss)
    as (σ' & Hrun & Hl & Hfr' & Hok'); [|done|done|done|].
  { apply Forall_forall. intros g _ b σ0 rows0 Hok0 Hb0 Hr0.
    assert (Hok1 : path_ok types (path ++ [type])) by (apply path_ok_snoc; [done..|by rewrite Hd]).
    pose proof (path_ok_length types _ Hok1). rewrite length_snoc in *.
    destruct (IH (S deep) g b σ0 (path ++ [type]) rows0 Hok1 ltac:(rewrite length_snoc; lia) Hok0 Hb0 Hr0) as (σ1 & ? & ? & _ & ? & ?).
    by exists σ1. }
  exists σ'. split_and!; [done| |by rewrite Hfr', Hqa|by eapply frame_except_trans|done].
  rewrite Hl. cbn. by rewrite <- app_assoc.
Qed.
(** A root call of lines 180 and 186: [addSubFields(deep, f, [])] on a
    fresh empty array. *)
Definition root_call (deep : nat) (f : field) : M unit :=
  b <<- arr_alloc [] ;; addSubFields_st types (S (size types)) deep f b.

(** C9. The root calls [addSubFields(1, arg, [])] and
    [addSubFields(0, query, [])] return with [S (size types)] fuel,
    append to [lines] exactly the text of the rows of the functional
    model [FieldTable.addSubFields], in order, and change no array that
    existed before the call. *)
Theorem addSubFields_st_refines (deep : nat) (f : field) (σ : store) (rows : list row) :
  heap_ok σ → addSubFields types deep f [] = Some rows →
  ∃ σ', root_call deep f σ = Some (tt, σ')
    ∧ st_lines σ' = st_lines σ ++ map row_line rows ∧ frame_all σ σ' ∧ heap_ok σ'.
Proof.
  intros Hok Hrows. destruct (arr_alloc_spec σ [] Hok) as (Hal & Hok1 & Hb & Hfr1).
  destruct (addSubFields_st_spec (S (size types)) deep f _ _ [] rows (path_ok_nil types)
              ltac:(simpl; lia) Hok1 Hb Hrows) as (σ' & Hrun & Hl & _ & Hfr & Hok').
  exists σ'. unfold root_call. rewrite (st_bind_run _ _ _ _ _ Hal). split_and!; [done..| |done].
  intros c Hc. rewrite Hfr; [by apply Hfr1|by apply heap_ok_ne|by rewrite Hfr1].
Qed.

(** C24. Idempotence (section 8 of the spec): two root calls of the same
    field, each on its own fresh array, append the same lines twice; the
    first call leaves no state that changes the second. *)
Theorem addSubFields_st_idempotent (deep : nat) (f : field) (σ : store) :
  heap_ok σ →
  ∃ σ' ls, (_ <<- root_call deep f ;; root_call deep f) σ = Some (tt, σ')
    ∧ st_lines σ' = st_lines σ ++ ls ++ ls.
Proof.
  intros Hok.
  destruct (guarded_fix_total types (addSubFields_body types) (deep, f) [] (path_ok_nil _))
    as [rows Hrows].
  destruct (arr_alloc_spec σ [] Hok) as (Hal1 & Hok1 & Hb1 & _).
  destruct (addSubFields_st_spec (S (size types)) deep f _ _ [] rows (path_ok_nil types)
              ltac:(simpl; lia) Hok1 Hb1 Hrows) as (σ1 & Hrun1 & Hl1 & _ & _ & Hok1').
  destruct (arr_alloc_spec σ1 [] Hok1') as (Hal2 & Hok2 & Hb2 & _).
  destruct (addSubFields_st_spec (S (size types)) deep f _ _ [] rows (path_ok_nil types)
              ltac:(simpl; lia) Hok2 Hb2 Hrows) as (σ2 & Hrun2 & Hl2 & _).
  exists σ2, (map row_line rows). unfold root_call.
  rewrite (st_bind_run _ _ σ tt σ1); [|by rewrite (st_bind_run _ _ _ _ _ Hal1)].
  rewrite (st_bind_run _ _ _ _ _ Hal2). split; [done|].
  rewrite Hl2. cbn. rewrite Hl1. by rewrite app_assoc.
Qed.
End Refinement.

(** ** Witnesses *)

(** The store of the root call [addSubFields(0, query, [])] of line 186:
    no line yet and one fresh empty array. *)
Definition root_store : store := mk_store [] {[1%positive := []]} 2%positive.

Lemma root_store_ok : heap_ok root_store.
Proof. intros c [x Hx]. cbn in *. apply lookup_singleton_Some in Hx as [<- _]. lia. Qed.

Lemma addSubFields_st_refines_witness :
  ∃ σ', root_call sample_types 0 (op_field getUser) root_store = Some (tt, σ')
    ∧ st_lines σ' = st_lines root_store
                   ++ map row_line (default [] (addSubFields sample_types 0 (op_field getUser) []))
    ∧ frame_all root_store σ' ∧ heap_ok σ'.
Proof.
  apply (addSubFields_st_refines sample_types 0 (op_field getUser) root_store);
    [apply root_store_ok|vm_compute; reflexivity].
Defined.

Lemma addSubFields_st_idempotent_witness :
  ∃ σ' ls, (_ <<- root_call sample_types 0 (op_field getUser) ;;
            root_call sample_types 0 (op_field getUser)) root_store = Some (tt, σ')
    ∧ st_lines σ' = st_lines root_store ++ ls ++ ls.
Proof. apply (addSubFields_st_idempotent sample_types 0 (op_field getUser) root_store), root_store_ok. Defined.
