(* ===== verification/MockJson.v ===== *)
(** * The example value: [buildMockJson] (src/index.js, lines 54-90)

    [buildMockJson(field, path)] returns a JS value. It is [undefined] when
    the field's type is already on the path (checked before any list
    wrapping). A built-in scalar gets a fixed stand-in. An enum gets the
    [value] of its first declared value, and an object gets a fresh
    object with one property per field. A list field wraps the value in a
    one-element array. A name missing from the type map gives [{}]. An
    enum with no values throws a [TypeError] at [define._values[0].value].
    The model returns a [completion jsval] for this. [mock_of] is the
    example value as a fold over the unfolding tree of [Tree], and
    [buildMockJson_refines] shows the code computes it. *)

From S2P Require Import Prelude Js Schema TypeExpr Walk Tree.

(** [isList ? [v] : v]. *)
Definition wrap (isList : bool) (v : jsval) : jsval :=
  if isList then JArray [v] else v.

(** Lines 66-73: the stand-in of a built-in scalar, [None] for any other
    type name. *)
Definition mock_scalar (type : string) (field : field) : option jsval :=
  if String.eqb "String" type then Some (JString (js_or (fdescription field) "String"))
  else if String.eqb "Boolean" type then Some (JBool false)
  else if String.eqb "Int" type || String.eqb "Long" type then Some (JNumber "1")
  else if String.eqb "Float" type then Some (JNumber "1.1")
  else None.

(** The [TypeError] of [define._values[0].value] on an empty enum. *)
Definition empty_enum_error : js_exn :=
  TypeError "Cannot read properties of undefined (reading 'value')".

Section BuildMockJson.
Context (types : gmap string typedef).
Context (rec : field → list string → option (completion jsval)).

(** Lines 82-85: [json[_field.name] = buildMockJson(_field, [...path])]
    for every field in order; an exception aborts the loop. *)
Fixpoint mock_fields (path' : list string) (fs : list field)
    (json : list (string * jsval)) : option (completion (list (string * jsval))) :=
  match fs with
  | [] => Some (Normal json)
  | f :: fs' =>
      r ← rec f path';
      match r with
      | Throw e => Some (Throw e)
      | Normal v => mock_fields path' fs' (js_set (fname f) v json)
      end
  end.

(** One call of [buildMockJson], with the recursive call [rec]. *)
Definition buildMockJson_body (field : field) (path : list string)
    : option (completion jsval) :=
  let '(type, isList) := strip_type (gtype_toString (ftype field)) in
  if js_array_includes type path then Some (Normal JUndefined)
  else
    let path' := path ++ [type] in
    match mock_scalar type field with
    | Some v => Some (Normal (wrap isList v))
    | None =>
        match types !! type with
        | None => Some (Normal (wrap isList (JObject [])))
        | Some define =>
            match td_values define with
            | Some [] => Some (Throw empty_enum_error)
            | Some (v :: _) => Some (Normal (wrap isList (ev_value v)))
            | None =>
                c ← mock_fields path' (td_fields define) [];
                Some (json <-! c; Normal (wrap isList (JObject json)))%cg
            end
        end
    end.
End BuildMockJson.

Section Guarded.
Context (types : gmap string typedef).

Lemma mock_fields_congr (f g : field → list string → option (completion jsval))
    (path' : list string) (fs : list field) (json : list (string * jsval)) :
  (∀ h, h ∈ fs → f h path' = g h path') →
  mock_fields f path' fs json = mock_fields g path' fs json.
Proof.
  revert json. induction fs as [|h fs IH]; intros json Hfg; [done|]. simpl.
  rewrite Hfg by (by left). destruct (g h path') as [[v|e]|]; simpl; [|done|done].
  apply IH. intros h' Hh'. apply Hfg. by right.
Qed.

Lemma mock_fields_total (f : field → list string → option (completion jsval))
    (path' : list string) (fs : list field) (json : list (string * jsval)) :
  (∀ h, h ∈ fs → is_Some (f h path')) → is_Some (mock_fields f path' fs json).
Proof.
  revert json. induction fs as [|h fs IH]; intros json Hf; [done|]. simpl.
  destruct (Hf h ltac:(by left)) as [[v|e] ->]; simpl; [|done].
  apply IH. intros h' Hh'. apply Hf. by right.
Qed.

#[export] Instance buildMockJson_guarded : GuardedBody types (buildMockJson_body types).
Proof.
  split.
  - intros f g fld path Hfg. unfold buildMockJson_body.
    destruct (strip_type _) as [type isList].
    unfold js_array_includes. case_bool_decide as Hin; [done|].
    destruct (mock_scalar _ _); [done|]. destruct (types !! type) as [d|] eqn:Hd; [|done].
    destruct (td_values d) as [[|]|]; [done|done|].
    rewrite (mock_fields_congr _ g); [done|]. intros h _. apply Hfg; [done|by rewrite Hd].
  - intros f fld path Hf. unfold buildMockJson_body.
    destruct (strip_type _) as [type isList].
    unfold js_array_includes. case_bool_decide as Hin; [done|].
    destruct (mock_scalar _ _); [done|]. destruct (types !! type) as [d|] eqn:Hd; [|done].
    destruct (td_values d) as [[|]|]; [done|done|].
    destruct (mock_fields_total f (path ++ [type]) (td_fields d) []) as [c ->]; [|done].
    intros h _. apply Hf; [done|by rewrite Hd].
Qed.

(** [buildMockJson(field, path)]. *)
Definition buildMockJson (field : field) (path : list string) : option (completion jsval) :=
  guarded_fix types (buildMockJson_body types) field path.
End Guarded.

(** ** Behaviour on each branch *)

(** No enum of the type map is empty (graphql-js schema validation
    requires one value at least, but [plugin] does not validate). *)
Definition enums_nonempty (types : gmap string typedef) : Prop :=
  map_Forall (λ _ d, td_values d ≠ Some []) types.

Lemma mock_scalar_bang (n : string) (f : field) : mock_scalar (n +:+ "!") f = None.
Proof.
  assert (∀ b, valid_name b = true → String.eqb b (n +:+ "!") = false) as Hne.
  { intros b Hb. apply String.eqb_neq. intros Heq. revert Hb. rewrite Heq, valid_name_app.
    by rewrite andb_false_r. }
  unfold mock_scalar. by rewrite !Hne.
Qed.

(** [obj[k] = v] on a fresh key appends the property. *)
Lemma js_set_fresh (k : string) (v : jsval) (props : list (string * jsval)) :
  k ∉ props.*1 → js_set k v props = props ++ [(k, v)].
Proof.
  induction props as [|[k' v'] props IH]; [done|]. simpl. intros Hk.
  assert (k ≠ k') as Hne by (intros ->; apply Hk; left).
  rewrite (proj2 (String.eqb_neq k k') Hne), IH; [done|]. intros Hin. apply Hk. by right.
Qed.

(** The loop of lines 82-85 returns when every recursive call returns a
    value; with distinct field names, it adds one property per field, in
    declaration order. *)
Lemma mock_fields_normal (rec : field → list string → option (completion jsval))
    (path' : list string) (fs : list field) (json : list (string * jsval)) :
  (∀ h, h ∈ fs → ∃ v, rec h path' = Some (Normal v)) →
  ∃ json', mock_fields rec path' fs json = Some (Normal json')
    ∧ (NoDup (json.*1 ++ (fname <$> fs)) → json'.*1 = json.*1 ++ (fname <$> fs)).
Proof.
  revert json. induction fs as [|h fs IH]; intros json Hrec.
  { exists json. split; [done|]. by rewrite app_nil_r. }
  destruct (Hrec h ltac:(by left)) as [v Hv]. simpl. rewrite Hv. simpl.
  destruct (IH (js_set (fname h) v json)) as (json' & Hj & Hkeys).
  { intros h' Hh'. apply Hrec. by right. }
  exists json'. split; [done|]. intros Hnd.
  assert (fname h ∉ json.*1) as Hfresh.
  { intros Hin. apply NoDup_app in Hnd as (_ & Hd & _). apply (Hd _ Hin). by left. }
  rewrite Hkeys; rewrite js_set_fresh by done; rewrite fmap_app; simpl;
    [by rewrite <- app_assoc|]. by rewrite <- app_assoc.
Qed.

Section Theorems.
Context (types : gmap string typedef).

Local Ltac step_tac :=
  unfold buildMockJson; rewrite (guarded_fix_unfold types (buildMockJson_body types)) by done;
  unfold buildMockJson_body, field_base, field_isList in *;
  destruct (strip_type _) as [type isList]; simpl in *;
  unfold js_array_includes; rewrite ?bool_decide_false by done.

(** C12. Cycle guard: a field whose type is already on the path yields
    [undefined], before any list wrapping: a list field that cycles
    back gives nothing, not an empty list. *)
Theorem buildMockJson_cycle (f : field) (path : list string) :
  field_base f ∈ path → buildMockJson types f path = Some (Normal JUndefined).
Proof.
  intros Hin. unfold buildMockJson, guarded_fix. cbn [walk].
  unfold buildMockJson_body, field_base in *. destruct (strip_type _) as [type isList].
  unfold js_array_includes. by rewrite bool_decide_true.
Qed.

(** A built-in scalar gets its stand-in, wrapped when the field is a
    list. *)
Lemma buildMockJson_builtin (f : field) (path : list string) (v : jsval) :
  path_ok types path → field_base f ∉ path → mock_scalar (field_base f) f = Some v →
  buildMockJson types f path = Some (Normal (wrap (field_isList f) v)).
Proof. intros Hok Hnin Hv. step_tac. by rewrite Hv. Qed.

(** C20. Enum: the [value] of the first declared value, wrapped in a
    one-element array for a list field. *)
Theorem buildMockJson_enum (f : field) (path : list string) (v : enum_value)
    (vs : list enum_value) :
  path_ok types path → field_base f ∉ path → mock_scalar (field_base f) f = None →
  types !! field_base f = Some (TDEnum (v :: vs)) →
  buildMockJson types f path = Some (Normal (wrap (field_isList f) (ev_value v))).
Proof. intros Hok Hnin Hs Hd. step_tac. by rewrite Hs, Hd. Qed.

(** An enum without values throws the [TypeError] of
    [define._values[0].value]. *)
Lemma buildMockJson_empty_enum (f : field) (path : list string) :
  path_ok types path → field_base f ∉ path → mock_scalar (field_base f) f = None →
  types !! field_base f = Some (TDEnum []) →
  buildMockJson types f path = Some (Throw empty_enum_error).
Proof. intros Hok Hnin Hs Hd. step_tac. by rewrite Hs, Hd. Qed.

(** A name missing from the type map gives an empty object. *)
Lemma buildMockJson_unresolved (f : field) (path : list string) :
  path_ok types path → field_base f ∉ path → mock_scalar (field_base f) f = None →
  types !! field_base f = None →
  buildMockJson types f path = Some (Normal (wrap (field_isList f) (JObject []))).
Proof. intros Hok Hnin Hs Hd. step_tac. by rewrite Hs, Hd. Qed.

(** The object branch. *)
Lemma buildMockJson_object (f : field) (path : list string) (d : typedef) :
  path_ok types path → field_base f ∉ path → mock_scalar (field_base f) f = None →
  types !! field_base f = Some d → td_values d = None →
  buildMockJson types f path
  = c ← mock_fields (buildMockJson types) (path ++ [field_base f]) (td_fields d) [];
    Some (json <-! c; Normal (wrap (field_isList f) (JObject json)))%cg.
Proof. intros Hok Hnin Hs Hd Hv. step_tac. by rewrite Hs, Hd, Hv. Qed.

(** Safety: when no enum of the schema is empty, [buildMockJson]
    returns (with [S (size types)] fuel) and throws no exception. *)
Theorem buildMockJson_normal (f : field) (path : list string) :
  enums_nonempty types → path_ok types path →
  ∃ v, buildMockJson types f path = Some (Normal v).
Proof.
  intros Henum. revert f path.
  apply (guarded_fix_ind types (buildMockJson_body types)
           (λ _ _ res, ∃ v, res = Some (Normal v))).
  intros f path Hok IH. set (F := guarded_fix _ _) in *. clearbody F.
  unfold buildMockJson_body. destruct (strip_type _) as [type isList].
  unfold js_array_includes. case_bool_decide as Hin; [by eexists|].
  destruct (mock_scalar _ _); [by eexists|].
  destruct (types !! type) as [d|] eqn:Hd; [|by eexists].
  destruct (td_values d) as [[|v vs]|] eqn:Hv; [|by eexists|].
  - by apply Henum in Hd.
  - destruct (mock_fields_normal F (path ++ [type]) (td_fields d) [])
      as (json & -> & _); [|by eexists].
    intros h _. apply IH; [done|by rewrite Hd].
Qed.

(** The only exception [buildMockJson] throws is the [TypeError] of an
    empty enum. *)
Lemma buildMockJson_throw (f : field) (path : list string) (e : js_exn) :
  path_ok types path → buildMockJson types f path = Some (Throw e) → e = empty_enum_error.
Proof.
  revert f path.
  apply (guarded_fix_ind types (buildMockJson_body types)
           (λ _ _ res, res = Some (Throw e) → e = empty_enum_error)).
  intros f path Hok IH. set (F := guarded_fix _ _) in *. clearbody F.
  unfold buildMockJson_body. destruct (strip_type _) as [type isList].
  unfold js_array_includes. case_bool_decide as Hin; [done|].
  destruct (mock_scalar _ _); [done|].
  destruct (types !! type) as [d|] eqn:Hd; [|done].
  destruct (td_values d) as [[|v vs]|]; [congruence|done|].
  assert (∀ fs json, mock_fields F (path ++ [type]) fs json = Some (Throw e) → e = empty_enum_error)
    as Hloop.
  { induction fs as [|h fs IHfs]; intros json; simpl; [done|].
    destruct (F h _) as [[v|e']|] eqn:Hh; simpl; [by apply IHfs|..|done].
    intros [= ->]. apply (IH h type Hin); [by rewrite Hd|done]. }
  destruct (mock_fields _ _ _ _) as [[json|e']|] eqn:Hm; simpl; [done| |done].
  intros [= ->]. by apply (Hloop _ _ Hm).
Qed.

(** C29. Object: the example value of an object type has one property
    per field of the type, in declaration order (field names of a type
    are distinct). *)
Theorem buildMockJson_object_keys (f : field) (path : list string) (d : typedef) :
  enums_nonempty types → path_ok types path → field_base f ∉ path →
  mock_scalar (field_base f) f = None → types !! field_base f = Some d →
  td_values d = None → NoDup (fname <$> td_fields d) →
  ∃ props, buildMockJson types f path
           = Some (Normal (wrap (field_isList f) (JObject props)))
    ∧ props.*1 = fname <$> td_fields d.
Proof.
  intros Henum Hok Hnin Hs Hd Hv Hnd. rewrite (buildMockJson_object f path d) by done.
  destruct (mock_fields_normal (buildMockJson types) (path ++ [field_base f])
              (td_fields d) []) as (json & -> & Hkeys).
  { intros h _. apply buildMockJson_normal; [done|]. apply path_ok_snoc; [done..|by rewrite Hd]. }
  exists json. split; [done|]. by apply Hkeys.
Qed.

(** C17. A field of type [[T!]!] gets [[{}]], whatever [T] is: the
    stripped name ["T!"] is neither a built-in scalar nor a key of the
    type map. *)
Theorem buildMockJson_required_list_of_required (nm n : string) (d : option string)
    (path : list string) :
  types_ok types → valid_name n = true → path_ok types path →
  buildMockJson types (mk_field nm (GNonNull (GList (GNonNull (GNamed n)))) d) path
  = Some (Normal (JArray [JObject []])).
Proof.
  intros Htypes Hn Hok. set (f := mk_field nm _ d).
  assert (Hbase : field_base f = n +:+ "!" ∧ field_isList f = true).
  { unfold field_base, field_isList, f. cbn [ftype].
    by rewrite strip_type_correct. }
  destruct Hbase as [Hbase Hlist].
  assert (Hnone : types !! field_base f = None) by (rewrite Hbase; by apply types_ok_bang).
  rewrite buildMockJson_unresolved; [by rewrite Hlist|done| |by rewrite Hbase, mock_scalar_bang|done].
  intros Hin. destruct Hok as [_ Hdom]. destruct (Hdom _ Hin) as [? Hs]. congruence.
Qed.
(** C21. A list field that the cycle guard does not cut gets a
    one-element array on every branch (built-in scalar, enum, missing
    name, object), as line 71, 79 and 88 wrap it. *)
Theorem buildMockJson_list (f : field) (path : list string) (v : jsval) :
  path_ok types path → field_base f ∉ path → field_isList f = true →
  buildMockJson types f path = Some (Normal v) → ∃ v', v = JArray [v'].
Proof.
  intros Hok Hnin Hl. step_tac. subst isList.
  repeat case_match; intros; simplify_eq/=; try by eauto.
  match goal with H : context [mock_fields ?r ?p ?fs ?j] |- _ =>
    destruct (mock_fields r p fs j) as [[]|]; simplify_eq/=; eauto end.
Qed.

End Theorems.


(** ** The example value as a fold over the unfolding *)

Fixpoint mock_of (t : ttree) : completion jsval :=
  match t with
  | TNode f k cs =>
      match k with
      | KCycle => Normal JUndefined
      | KScalar =>
          Normal (wrap (field_isList f) (default (JObject []) (mock_scalar (field_base f) f)))
      | KUnresolved => Normal (wrap (field_isList f) (JObject []))
      | KEnum [] => Throw empty_enum_error
      | KEnum (v :: _) => Normal (wrap (field_isList f) (ev_value v))
      | KObject =>
          (json <-! (fix go (cs : list ttree) (acc : list (string * jsval)) :=
                       match cs with
                       | [] => Normal acc
                       | c :: cs' => v <-! mock_of c; go cs' (js_set (fname (tnode_field c)) v acc)
                       end) cs [];
           Normal (wrap (field_isList f) (JObject json)))%cg
      end
  end.

(** The loop over the children, as a function of its own. *)
Fixpoint mock_children (cs : list ttree) (acc : list (string * jsval))
    : completion (list (string * jsval)) :=
  match cs with
  | [] => Normal acc
  | c :: cs' => (v <-! mock_of c; mock_children cs' (js_set (fname (tnode_field c)) v acc))%cg
  end.

Lemma mock_of_object (f : field) (cs : list ttree) :
  mock_of (TNode f KObject cs)
  = (json <-! mock_children cs []; Normal (wrap (field_isList f) (JObject json)))%cg.
Proof. reflexivity. Qed.

Lemma mock_scalar_is_Some (type : string) (f : field) :
  is_Some (mock_scalar type f) ↔ type ∈ builtin_scalars.
Proof.
  unfold mock_scalar, builtin_scalars. rewrite !elem_of_cons, elem_of_nil.
  destruct (String.eqb_spec "String" type) as [<-|H1]; [split; [by left|by eexists]|].
  destruct (String.eqb_spec "Boolean" type) as [<-|H2]; [split; [naive_solver|by eexists]|].
  destruct (String.eqb_spec "Int" type) as [<-|H3]; [split; [naive_solver|by eexists]|].
  destruct (String.eqb_spec "Long" type) as [<-|H4]; [split; [naive_solver|by eexists]|].
  destruct (String.eqb_spec "Float" type) as [<-|H5]; [split; [naive_solver|by eexists]|].
  simpl. split; [by intros [? ?]|]. intros Hc. exfalso.
  repeat destruct Hc as [Hc|Hc]; congruence.
Qed.

(** C27. A custom scalar ([scalar Date]) or a union, which has neither
    [_values] nor [_fields], is given the empty object [{}] as example
    value, wrapped for a list field, although its values are not objects. *)
Theorem buildMockJson_custom_scalar (types : gmap string typedef) (f : field)
    (path : list string) (d : typedef) :
  path_ok types path → field_base f ∉ path → field_base f ∉ builtin_scalars →
  types !! field_base f = Some d → td_values d = None → td_fields d = [] →
  buildMockJson types f path = Some (Normal (wrap (field_isList f) (JObject []))).
Proof.
  intros Hok Hnin Hb Hd Hv Hf.
  rewrite (buildMockJson_object types f path d Hok Hnin); [|..|done|done].
  - by rewrite Hf.
  - destruct (mock_scalar _ _) eqn:Hs; [|done]. exfalso. apply Hb, (mock_scalar_is_Some _ f).
    by rewrite Hs.
Qed.

Section Refinement.
Context (types : gmap string typedef).

(** The property loop of lines 82-85 is the fold over the children. *)
Lemma mock_fields_children (F : field → list string → option (completion jsval))
    (path' : list string) (fs : list field) (acc : list (string * jsval)) :
  path_ok types path' →
  (∀ g, g ∈ fs → F g path' = mock_of <$> unfold types g path') →
  mock_fields F path' fs acc
  = cs ← mapM (λ g, unfold types g path') fs; Some (mock_children cs acc).
Proof.
  intros Hok. revert acc. induction fs as [|g fs IH]; intros acc HF; [done|].
  simpl. rewrite HF by (by left).
  destruct (unfold_total types g path' Hok) as [c Hc]. rewrite Hc.
  destruct (mapM_is_Some_elem (λ h, unfold types h path') fs) as [cs Hcs].
  { intros h _. by apply unfold_total. }
  simpl. rewrite Hcs. simpl. rewrite (unfold_field types g path' c Hok Hc).
  destruct (mock_of c) as [v|e] eqn:Hm; simpl; [|done].
  rewrite IH by (intros h Hh; apply HF; by right). by rewrite Hcs.
Qed.

(** C7. Refinement: [buildMockJson] computes the fold of the unfolding of
    the field, exceptions included, on every valid path. *)
Theorem buildMockJson_refines (f : field) (path : list string) :
  path_ok types path → buildMockJson types f path = mock_of <$> unfold types f path.
Proof.
  revert f path.
  apply (guarded_fix_ind types (buildMockJson_body types)
           (λ f path res, res = mock_of <$> unfold types f path)).
  intros g path Hok IH. set (F := guarded_fix _ _) in *. clearbody F.
  rewrite unfold_eq by done. unfold buildMockJson_body, unfold_body.
  destruct (strip_type _) as [type isList] eqn:Hst.
  assert (field_base g = type ∧ field_isList g = isList) as [Hb Hl]
    by (unfold field_base, field_isList; by rewrite Hst).
  rewrite Hb. unfold js_array_includes. case_bool_decide as Hin; [done|].
  destruct (mock_scalar type g) as [v|] eqn:Hs.
  - rewrite bool_decide_true by (apply (mock_scalar_is_Some type g); by rewrite Hs).
    simpl. by rewrite Hl, Hb, Hs.
  - rewrite bool_decide_false by (rewrite <- (mock_scalar_is_Some type g), Hs; by intros [? ?]).
    destruct (types !! type) as [d|] eqn:Hd; [|simpl; by rewrite Hl].
    destruct (td_values d) as [[|v vs]|]; [done|simpl; by rewrite Hl|].
    rewrite mock_fields_children; [|by apply path_ok_snoc; [..|rewrite Hd]|].
    + destruct (mapM _ _); simpl; [|done]. rewrite Hl. reflexivity.
    + intros h _. apply IH; [done|by rewrite Hd].
Qed.
End Refinement.

(** ** Witnesses *)

Lemma buildMockJson_refines_witness :
  buildMockJson sample_types (op_field getUser) [] = mock_of <$> unfold sample_types (op_field getUser) [].
Proof. apply buildMockJson_refines, path_ok_nil. Defined.

Lemma buildMockJson_cycle_witness :
  buildMockJson sample_types (mk_field "friends" (GList (GNamed "User")) None) ["User"]
  = Some (Normal JUndefined).
Proof. apply buildMockJson_cycle. by left. Defined.

Lemma buildMockJson_enum_witness :
  buildMockJson (<["Color" := TDEnum [mk_enum_value "RED" (JString "RED") None]]> ∅)
    (mk_field "c" (GList (GNamed "Color")) None) []
  = Some (Normal (JArray [JString "RED"])).
Proof.
  apply (buildMockJson_enum _ (mk_field "c" (GList (GNamed "Color")) None) []
           (mk_enum_value "RED" (JString "RED") None) []);
    [apply path_ok_nil|set_solver|reflexivity|reflexivity].
Defined.

Lemma sample_enums_nonempty : enums_nonempty sample_types.
Proof. unfold enums_nonempty, sample_types. by repeat apply map_Forall_insert_2. Qed.
Lemma buildMockJson_object_keys_witness :
  ∃ props, buildMockJson sample_types (op_field getUser) []
           = Some (Normal (wrap false (JObject props)))
    ∧ props.*1 = ["id"; "name"; "friends"].
Proof.
  apply (buildMockJson_object_keys sample_types (op_field getUser) [] (TDObject user_fields));
    [apply sample_enums_nonempty|apply path_ok_nil|set_solver|reflexivity|reflexivity
    |reflexivity|].
  vm_compute. repeat constructor; set_solver.
Defined.

Lemma buildMockJson_required_list_of_required_witness :
  buildMockJson sample_types (mk_field "users" (GNonNull (GList (GNonNull (GNamed "User")))) None) []
  = Some (Normal (JArray [JObject []])).
Proof.
  apply (buildMockJson_required_list_of_required sample_types "users" "User" None []);
    [apply sample_types_ok|reflexivity|apply path_ok_nil].
Defined.

Lemma buildMockJson_custom_scalar_witness :
  buildMockJson (<["Date" := TDScalar]> ∅) (mk_field "at" (GList (GNamed "Date")) None) []
  = Some (Normal (JArray [JObject []])).
Proof.
  apply (buildMockJson_custom_scalar _ (mk_field "at" (GList (GNamed "Date")) None) [] TDScalar);
    [apply path_ok_nil|set_solver|vm_compute; set_solver|reflexivity..].
Defined.

Lemma buildMockJson_list_witness :
  ∃ v', default JNull (match buildMockJson sample_types (mk_field "friends" (GList (GNamed "User")) None) []
                       with Some (Normal v) => Some v | _ => None end) = JArray [v'].
Proof.
  apply (buildMockJson_list sample_types (mk_field "friends" (GList (GNamed "User")) None) []);
    [apply path_ok_nil|set_solver|reflexivity|vm_compute; reflexivity].
Defined.
