(* ===== verification/ResponseSchema.v ===== *)
(** * The example query: [buildResponseSchema] and [buildQueryInput]
      (src/index.js, lines 92-156)

    [buildResponseSchema(field, path)] returns the selection set of a field.
    It gives [undefined] on a cycle, so the field is dropped from its
    parent's selection. A built-in scalar gives its name (nothing at the
    root), and an enum or a missing name gives [''] (also dropped). An
    object joins the truthy selections of its fields with a space and
    wraps them in braces; with no selection left it gives the bare name
    (nothing at the root). The root is recognised by [path.length === 1]
    after the push. The template literals are reproduced to the byte
    ([selection_block]). The result is an [option string] ([None] is
    [undefined]). [buildQueryInput] wraps the root selection in the query
    text of the example request.

    [shape_of] is the selection as a fold over the unfolding tree of
    [Tree], and [buildResponseSchema_refines] shows the code computes it.
    [brace_scan] reads the brace depth of a text; with it the query text
    is shown to have well-nested braces ([buildQueryInput_balanced]). *)

From S2P Require Import Prelude Js Schema TypeExpr Walk Tree.

(** Lines 118-121 (with [head = ""]) and 127-130 (with the field's name):
    [`${head} {\n<32 spaces>${sub}\n<28 spaces>}    \n<24 spaces>`]. *)
Definition selection_block (head sub : string) : string :=
  head +:+ " {" +:+ nl +:+ spaces 32 +:+ sub +:+ nl +:+ spaces 28 +:+ "}    "
  +:+ nl +:+ spaces 24.

Section BuildResponseSchema.
Context (types : gmap string typedef).

(** One call of [buildResponseSchema], with the recursive call [rec]. *)
Definition buildResponseSchema_body
    (rec : field → list string → option (option string))
    (field : field) (path : list string) : option (option string) :=
  let '(type, _) := strip_type (gtype_toString (ftype field)) in
  if js_array_includes type path then Some None
  else
    let path' := path ++ [type] in
    if negb (js_array_includes type builtin_scalars) then
      match types !! type with
      | Some define =>
          match td_values define with
          | Some _ => Some (Some "")
          | None =>
              sub ← mapM (λ f, rec f path') (td_fields define);
              let subFieldSchema := js_join " " (js_filter_truthy sub) in
              if Nat.eqb (length path') 1 then
                if negb (Nat.eqb (String.length subFieldSchema) 0)
                then Some (Some (selection_block "" subFieldSchema))
                else Some (Some "")
              else
                if negb (Nat.eqb (String.length subFieldSchema) 0)
                then Some (Some (selection_block (fname field) subFieldSchema))
                else Some (Some (fname field))
          end
      | None => Some (Some "")
      end
    else
      if Nat.eqb (length path') 1 then Some (Some "") else Some (Some (fname field)).

#[export] Instance buildResponseSchema_guarded :
  GuardedBody types buildResponseSchema_body.
Proof.
  split.
  - intros f g fld path Hfg. unfold buildResponseSchema_body.
    destruct (strip_type _) as [type isList].
    unfold js_array_includes. case_bool_decide as Hin; [done|].
    destruct (negb _); [|done]. destruct (types !! type) as [d|] eqn:Hd; [|done].
    destruct (td_values d); [done|].
    rewrite (mapM_ext_elem _ (λ h, g h (path ++ [type]))); [done|].
    intros h _. apply Hfg; [done|by rewrite Hd].
  - intros f fld path Hf. unfold buildResponseSchema_body.
    destruct (strip_type _) as [type isList].
    unfold js_array_includes. case_bool_decide as Hin; [done|].
    destruct (negb _); [|by case_match]. destruct (types !! type) as [d|] eqn:Hd; [|done].
    destruct (td_values d); [done|].
    destruct (mapM_is_Some_elem (λ h, f h (path ++ [type])) (td_fields d))
      as [sub ->]; [|simpl; by repeat case_match].
    intros h _. apply Hf; [done|by rewrite Hd].
Qed.

(** [buildResponseSchema(field, path)]. *)
Definition buildResponseSchema (field : field) (path : list string) : option (option string) :=
  guarded_fix types buildResponseSchema_body field path.

(** Lines 148-156: the query text of the example request, for a query
    with its arguments. *)
Definition buildQueryInput (query : operation) : option string :=
  let args := map (λ arg, (fname arg, gtype_toString (ftype arg))) (op_args query) in
  responseSchema ← buildResponseSchema (op_field query) [];
  Some (nl +:+ spaces 16 +:+ "query search("
        +:+ js_join ", " (map (λ kv, "$" +:+ kv.1 +:+ ": " +:+ kv.2) args) +:+ "){"
        +:+ nl +:+ spaces 20 +:+ "data: " +:+ fname (op_field query) +:+ "("
        +:+ js_join ", " (map (λ kv, kv.1 +:+ ": $" +:+ kv.1) args) +:+ ") "
        +:+ js_show responseSchema +:+ nl +:+ spaces 16 +:+ "}" +:+ nl +:+ spaces 12).
End BuildResponseSchema.

(** ** Behaviour on each branch *)

Section Theorems.
Context (types : gmap string typedef).

Local Ltac step_tac :=
  unfold buildResponseSchema; rewrite (guarded_fix_unfold types (buildResponseSchema_body types)) by done;
  unfold buildResponseSchema_body, field_base in *;
  destruct (strip_type _) as [type isList]; cbn [fst snd] in *;
  unfold js_array_includes; rewrite ?bool_decide_false by done.

Lemma length_snoc_eqb_1 (path : list string) (t : string) :
  Nat.eqb (length (path ++ [t])) 1 = bool_decide (path = []).
Proof.
  rewrite length_snoc. by destruct path.
Qed.

(** C13. Cycle guard: a field whose type is already on the path gives
    [undefined], so it is dropped from its parent's selection. *)
Theorem buildResponseSchema_cycle (f : field) (path : list string) :
  field_base f ∈ path → buildResponseSchema types f path = Some None.
Proof.
  intros Hin. unfold buildResponseSchema, guarded_fix. cbn [walk].
  unfold buildResponseSchema_body, field_base in *. destruct (strip_type _) as [type isList].
  unfold js_array_includes. by rewrite bool_decide_true.
Qed.

(** C32. A built-in scalar selects itself by name, except at the root,
    where it needs no selection. *)
Theorem buildResponseSchema_builtin (f : field) (path : list string) :
  path_ok types path → field_base f ∉ path → field_base f ∈ builtin_scalars →
  buildResponseSchema types f path = Some (Some (if bool_decide (path = []) then "" else fname f)).
Proof.
  intros Hok Hnin Hb. step_tac. rewrite bool_decide_true by done. simpl.
  rewrite length_snoc_eqb_1. by case_bool_decide.
Qed.

(** An enum, or a name missing from the type map, selects nothing. *)
Lemma buildResponseSchema_enum_or_unresolved (f : field) (path : list string) :
  path_ok types path → field_base f ∉ path → field_base f ∉ builtin_scalars →
  (types !! field_base f = None ∨ ∃ vs, types !! field_base f = Some (TDEnum vs)) →
  buildResponseSchema types f path = Some (Some "").
Proof.
  intros Hok Hnin Hb Hd. step_tac. simpl.
  by destruct Hd as [->|[vs ->]].
Qed.

(** The object branch: the truthy selections of the fields, joined by a
    space; braces around them when there is one, the bare name (or
    nothing at the root) otherwise. *)
Lemma buildResponseSchema_object (f : field) (path : list string) (d : typedef) :
  path_ok types path → field_base f ∉ path → field_base f ∉ builtin_scalars →
  types !! field_base f = Some d → td_values d = None →
  buildResponseSchema types f path
  = sub ← mapM (λ g, buildResponseSchema types g (path ++ [field_base f])) (td_fields d);
    let s := js_join " " (js_filter_truthy sub) in
    Some (Some (if bool_decide (s = "")
                then (if bool_decide (path = []) then "" else fname f)
                else selection_block (if bool_decide (path = []) then "" else fname f) s)).
Proof.
  intros Hok Hnin Hb Hd Hv. step_tac. simpl.
  rewrite Hd, Hv. destruct (mapM _ _) as [sub|]; simpl; [|done].
  rewrite length_snoc_eqb_1.
  destruct (js_join " " _) as [|c s]; simpl; by repeat case_bool_decide.
Qed.

(** C10. The root call always returns a selection text (never
    [undefined]), with [S (size types)] fuel. *)
Theorem buildResponseSchema_root (f : field) :
  ∃ s, buildResponseSchema types f [] = Some (Some s).
Proof.
  destruct (guarded_fix_total types (buildResponseSchema_body types) f [] (path_ok_nil types))
    as [o Hs].
  unfold buildResponseSchema. rewrite Hs. destruct o as [s|]; [by exists s|exfalso].
  revert Hs. rewrite (guarded_fix_unfold types (buildResponseSchema_body types)) by apply path_ok_nil.
  unfold buildResponseSchema_body. destruct (strip_type _) as [type isList].
  unfold js_array_includes. rewrite bool_decide_false by apply not_elem_of_nil.
  destruct (negb _); [|by case_match]. destruct (types !! type); [|done].
  destruct (td_values _); [done|]. destruct (mapM _ _); simpl; [|done].
  by repeat case_match.
Qed.
(** C18. A field of type [[T!]!] is dropped from the example query,
    whatever [T] is: the stripped name ["T!"] is no key of the type map,
    so even an object [T] is selected as [''] and filtered out. *)
Theorem buildResponseSchema_required_list_of_required (nm n : string) (d : option string)
    (path : list string) :
  types_ok types → valid_name n = true → path_ok types path →
  buildResponseSchema types (mk_field nm (GNonNull (GList (GNonNull (GNamed n)))) d) path
  = Some (Some "").
Proof.
  intros Htypes Hn Hok. set (f := mk_field nm _ d).
  assert (Hbase : field_base f = n +:+ "!").
  { unfold field_base, f. cbn [ftype]. by rewrite strip_type_correct. }
  apply buildResponseSchema_enum_or_unresolved; [done|..]; rewrite Hbase.
  - intros Hin. destruct Hok as [_ Hdom]. destruct (Hdom _ Hin) as [? Hs].
    by rewrite types_ok_bang in Hs.
  - apply builtin_bang.
  - left. by apply types_ok_bang.
Qed.
(** Sub-selections that are all [undefined] or [''] join to nothing. *)
Lemma mapM_falsy {A} (h : A → option (option string)) (l : list A) :
  (∀ x, x ∈ l → h x = Some None ∨ h x = Some (Some "")) →
  ∃ sub, mapM h l = Some sub ∧ js_filter_truthy sub = [].
Proof.
  induction l as [|x l IH]; intros Hl; [by exists []|].
  destruct IH as (sub & Hsub & Hnil); [intros y Hy; apply Hl; by right|].
  destruct (Hl x ltac:(by left)) as [Hx|Hx]; cbn [mapM]; rewrite Hx, Hsub; simpl;
    eexists; (split; [reflexivity|]); unfold js_filter_truthy in *; by rewrite omap_cons, Hnil.
Qed.

(** C15. An object type at the root none of whose fields is selectable
    (every field is cut by the cycle guard, or is an enum, a missing
    name or itself such an object) gives the empty selection text, not
    an empty pair of braces, as section 8 of the spec asks. *)
Theorem buildResponseSchema_root_empty (f : field) (d : typedef) :
  field_base f ∉ builtin_scalars → types !! field_base f = Some d → td_values d = None →
  (∀ g, g ∈ td_fields d →
     buildResponseSchema types g [field_base f] = Some None
     ∨ buildResponseSchema types g [field_base f] = Some (Some "")) →
  buildResponseSchema types f [] = Some (Some "").
Proof.
  intros Hb Hd Hv Hg.
  rewrite (buildResponseSchema_object f [] d (path_ok_nil _)); [|set_solver|done..].
  destruct (mapM_falsy (λ g, buildResponseSchema types g ([] ++ [field_base f])) _ Hg)
    as (sub & -> & Hnil). simpl. by rewrite Hnil.
Qed.
End Theorems.


(** ** The selection as a fold over the unfolding *)

(** The selection text of an unfolding tree; [root] for the root call. *)
Fixpoint shape_of (root : bool) (t : ttree) : option string :=
  match t with
  | TNode f k cs =>
      let head := if root then "" else fname f in
      match k with
      | KCycle => None
      | KScalar => Some head
      | KUnresolved | KEnum _ => Some ""
      | KObject =>
          let s := js_join " " (js_filter_truthy (map (shape_of false) cs)) in
          Some (if bool_decide (s = "") then head else selection_block head s)
      end
  end.

Section Refinement.
Context (types : gmap string typedef).

(** C8. Refinement: [buildResponseSchema] computes the selection of the
    unfolding of the field, on every valid path; the root is the call
    with the empty path. *)
Theorem buildResponseSchema_refines (f : field) (path : list string) :
  path_ok types path →
  buildResponseSchema types f path = shape_of (bool_decide (path = [])) <$> unfold types f path.
Proof.
  revert f path.
  apply (guarded_fix_ind types (buildResponseSchema_body types)
           (λ f path res, res = shape_of (bool_decide (path = [])) <$> unfold types f path)).
  intros g path Hok IH. set (F := guarded_fix _ _) in *. clearbody F.
  rewrite unfold_eq by done. unfold buildResponseSchema_body, unfold_body, field_base.
  destruct (strip_type _) as [type isList]. cbn [fst].
  unfold js_array_includes. case_bool_decide as Hin; [done|].
  rewrite length_snoc_eqb_1.
  case_bool_decide as Hb; simpl; [by case_bool_decide|].
  destruct (types !! type) as [d|] eqn:Hd; [|done].
  destruct (td_values d); [done|].
  rewrite (mapM_ext_elem _ (λ h, shape_of false <$> unfold types h (path ++ [type]))).
  - rewrite mapM_fmap_out. destruct (mapM _ _) as [cs|]; simpl; [|done].
    destruct (js_join " " _) as [|c s']; simpl; by repeat case_bool_decide.
  - intros h _. rewrite (IH h type Hin) by (by rewrite Hd).
    rewrite bool_decide_false; [done|]. by destruct path.
Qed.

Lemma selection_block_nonempty (head sub : string) : selection_block head sub ≠ "".
Proof. unfold selection_block. destruct head; done. Qed.

(** C14. Which fields the example query selects: a field below the root
    (with a non-empty name) is selected exactly when the cycle guard does
    not cut it and its type is a built-in scalar or a type with no enum
    values (object, interface, input, union or custom scalar). An enum
    field, or a field whose type name is missing from the type map, is
    never selected, although the example response has a value for it. *)
Theorem buildResponseSchema_selected_iff (g : field) (path : list string) :
  path_ok types path → path ≠ [] → fname g ≠ "" →
  (∃ s, buildResponseSchema types g path = Some (Some s) ∧ s ≠ "")
  ↔ (field_base g ∉ path)
    ∧ (field_base g ∈ builtin_scalars
       ∨ ∃ d, types !! field_base g = Some d ∧ td_values d = None).
Proof.
  intros Hok Hne Hname. unfold buildResponseSchema.
  rewrite (guarded_fix_unfold types (buildResponseSchema_body types)) by done.
  pose proof (guarded_fix_total types (buildResponseSchema_body types)) as Htot.
  set (F := guarded_fix _ _) in *. clearbody F.
  unfold buildResponseSchema_body, field_base.
  destruct (strip_type _) as [type isList]. cbn [fst].
  unfold js_array_includes. case_bool_decide as Hin.
  { split; [by intros (s & [=] & _)|by intros []]. }
  rewrite length_snoc_eqb_1, (bool_decide_false (path = [])) by done.
  case_bool_decide as Hb; cbn [negb].
  { split; [by intros _; split; [|left]|intros _; by exists (fname g)]. }
  destruct (types !! type) as [d|] eqn:Hd.
  - destruct (td_values d) as [vs|] eqn:Hv.
    + split; [by intros (s & [= <-] & ?)|]. intros [_ [?|(d' & [= <-] & ?)]]; congruence.
    + destruct (mapM_is_Some_elem (λ h, F h (path ++ [type])) (td_fields d)) as [sub ->].
      { intros h _. apply Htot, path_ok_snoc; [done..|by rewrite Hd]. }
      split; [intros _; split; [done|right; by exists d]|intros _]. simpl.
      case_match; (eexists; split; [reflexivity|]); [apply selection_block_nonempty|done].
  - split; [by intros (s & [= <-] & ?)|]. intros [_ [?|(d' & ? & _)]]; congruence.
Qed.
End Refinement.

(** ** Well-nested braces *)

(** The brace depth after reading [s] from depth [d]; [None] when a
    ['}'] closes nothing. A text is well nested when [brace_scan 0]
    ends at [Some 0]. *)
Fixpoint brace_scan (d : nat) (s : string) : option nat :=
  match s with
  | EmptyString => Some d
  | String c s' =>
      if bool_decide (c = "{"%char) then brace_scan (S d) s'
      else if bool_decide (c = "}"%char) then
        match d with 0 => None | S d' => brace_scan d' s' end
      else brace_scan d s'
  end.

(** A text that leaves every depth unchanged. *)
Definition neutral (s : string) : Prop := ∀ d, brace_scan d s = Some d.

Lemma brace_scan_app (d : nat) (a b : string) :
  brace_scan d (a +:+ b) = brace_scan d a ≫= λ d', brace_scan d' b.
Proof.
  revert d. induction a as [|c a IH]; intros d; [done|].
  rewrite str_app_cons. simpl. by repeat case_match.
Qed.

Lemma neutral_app (a b : string) : neutral a → neutral b → neutral (a +:+ b).
Proof. intros Ha Hb d. rewrite brace_scan_app, Ha. apply Hb. Qed.

Lemma neutral_free (s : string) :
  count_char "{" s = 0 → count_char "}" s = 0 → neutral s.
Proof.
  intros H1 H2 d. revert H1 H2. induction s as [|c s IH]; [done|]. simpl.
  repeat case_bool_decide; simplify_eq/=; [lia|lia|]. by apply IH.
Qed.

Lemma neutral_name (n : string) : valid_name n = true → neutral n.
Proof. intros Hn. apply neutral_free; by apply valid_name_count. Qed.

Lemma neutral_spaces (k : nat) : neutral (spaces k).
Proof. unfold spaces. apply neutral_free; by rewrite count_char_repeat_char. Qed.

Lemma neutral_join (sep : string) (l : list string) :
  neutral sep → Forall neutral l → neutral (js_join sep l).
Proof.
  intros Hsep. unfold js_join. induction 1 as [|x l Hx _ IH]; [done|].
  destruct l as [|y l]; [done|]. simpl. by apply neutral_app, neutral_app.
Qed.

(** Reads a concatenation piece by piece: a piece with a [neutral]
    hypothesis is skipped, a literal is computed. *)
Ltac scan_tac :=
  repeat (rewrite brace_scan_app;
          match goal with
          | H : neutral ?a |- context [brace_scan ?d ?a] => rewrite (H d)
          | _ => idtac
          end; simpl);
  match goal with
  | H : neutral ?a |- context [brace_scan ?d ?a] => apply H
  | _ => reflexivity
  end.

Lemma neutral_block (head sub : string) :
  neutral head → neutral sub → neutral (selection_block head sub).
Proof.
  intros Hh Hs d. unfold selection_block. scan_tac.
Qed.

(** The truthy selections of the sub-fields are neutral when every
    selection is. *)
Lemma neutral_filter_truthy (l : list (option string)) :
  Forall (λ o, ∀ s, o = Some s → neutral s) l → Forall neutral (js_filter_truthy l).
Proof.
  unfold js_filter_truthy. induction 1 as [|o l Ho _ IH]; [constructor|].
  rewrite omap_cons. destruct o as [s|]; simpl; [|done].
  destruct (String.eqb s ""); simpl; [done|]. constructor; [by apply Ho|done].
Qed.

Section Braces.
Context (types : gmap string typedef) (Hfields : fields_ok types).

(** Every selection of a field with a valid name, on every valid path,
    leaves the brace depth unchanged. *)
Lemma buildResponseSchema_neutral (f : field) (path : list string) (s : string) :
  path_ok types path → valid_name (fname f) = true →
  buildResponseSchema types f path = Some (Some s) → neutral s.
Proof.
  intros Hok. revert f path Hok s.
  apply (guarded_fix_ind types (buildResponseSchema_body types)
           (λ f path res, ∀ s, valid_name (fname f) = true → res = Some (Some s) → neutral s)).
  intros g path Hok IH s Hname. set (F := guarded_fix _ _) in *. clearbody F.
  unfold buildResponseSchema_body. destruct (strip_type _) as [type isList].
  unfold js_array_includes. case_bool_decide as Hin; [done|].
  case_bool_decide as Hb; cbn [negb].
  { case_match; intros [= <-]; [done|by apply neutral_name]. }
  destruct (types !! type) as [d|] eqn:Hd; [|by intros [= <-]].
  destruct (td_values d); [by intros [= <-]|].
  destruct (mapM _ _) as [sub|] eqn:Hsub; simpl; [|done].
  assert (Forall neutral (js_filter_truthy sub)) as Hall.
  { apply neutral_filter_truthy, Forall_forall. intros o Ho s' ->.
    apply mapM_Some_1 in Hsub. destruct (Forall2_elem_r _ _ _ _ Hsub Ho) as (h & Hh & Heq).
    apply (IH h type Hin ltac:(by rewrite Hd) s'); [|done].
    by apply (proj1 (Forall_forall _ _) (Hfields type d Hd)). }
  pose proof (neutral_join " " _ ltac:(by intros ?) Hall) as Hj.
  assert (neutral (fname g)) by by apply neutral_name.
  assert (neutral "") by by intros ?.
  repeat case_match; intros [= <-]; by try apply neutral_block.
Qed.

(** C25. The query text of the example request has well-nested braces:
    reading it never closes a brace that is not open, and every brace
    opened is closed. *)
Theorem buildQueryInput_balanced (q : operation) (t : string) :
  Forall (λ g, valid_name (fname g) = true ∧ valid_gtype (ftype g) = true)
    (op_field q :: op_args q) →
  buildQueryInput types q = Some t → brace_scan 0 t = Some 0.
Proof.
  intros Hq. apply Forall_cons in Hq as [[Hroot _] Hargs].
  unfold buildQueryInput. destruct (buildResponseSchema _ _ _) as [o|] eqn:Hr; [|done].
  intros [= <-].
  assert (neutral (js_show o)) as Ho.
  { destruct o as [s|]; [|intros ?; reflexivity].
    apply (buildResponseSchema_neutral (op_field q) [] s (path_ok_nil _) Hroot Hr). }
  assert (neutral (fname (op_field q))) by by apply neutral_name.
  assert (∀ g, g ∈ op_args q → neutral (fname g) ∧ neutral (gtype_toString (ftype g))) as Hg.
  { intros g Hg. apply (proj1 (Forall_forall _ _) Hargs) in Hg as [Hn Ht].
    split; [by apply neutral_name|]. apply neutral_free;
      rewrite gtype_toString_shape; autorewrite with codegen_rw;
      rewrite valid_name_count by done; by repeat case_bool_decide. }
  assert (neutral (js_join ", " (map (λ kv, "$" +:+ kv.1 +:+ ": " +:+ kv.2)
            (map (λ arg, (fname arg, gtype_toString (ftype arg))) (op_args q))))).
  { apply neutral_join; [by intros ?|]. apply Forall_forall.
    intros x ([? ?] & -> & (g & [= -> ->] & Hin)%list_elem_of_fmap)%list_elem_of_fmap.
    destruct (Hg g Hin). cbn [fst snd]. intros d. scan_tac. }
  assert (neutral (js_join ", " (map (λ kv, kv.1 +:+ ": $" +:+ kv.1)
            (map (λ arg, (fname arg, gtype_toString (ftype arg))) (op_args q))))).
  { apply neutral_join; [by intros ?|]. apply Forall_forall.
    intros x ([? ?] & -> & (g & [= -> ->] & Hin)%list_elem_of_fmap)%list_elem_of_fmap.
    destruct (Hg g Hin). cbn [fst snd]. intros d. scan_tac. }
  scan_tac.
Qed.
End Braces.

(** ** Witnesses *)

Lemma buildResponseSchema_cycle_witness :
  buildResponseSchema sample_types (mk_field "friends" (GList (GNamed "User")) None) ["User"]
  = Some None.
Proof. apply buildResponseSchema_cycle. by left. Defined.

Lemma buildResponseSchema_builtin_witness :
  buildResponseSchema sample_types (mk_field "id" (GNonNull (GNamed "Int")) None) ["User"]
  = Some (Some "id").
Proof.
  apply (buildResponseSchema_builtin sample_types (mk_field "id" (GNonNull (GNamed "Int")) None)
           ["User"]).
  - split; [apply NoDup_singleton|]. intros t ->%list_elem_of_singleton. by eexists.
  - vm_compute. intros Hin. apply elem_of_cons in Hin as [Hin|Hin]; [discriminate|].
    by apply elem_of_nil in Hin.
  - vm_compute. right. left.
Defined.

Lemma buildResponseSchema_refines_witness :
  buildResponseSchema sample_types (op_field getUser) []
  = shape_of true <$> unfold sample_types (op_field getUser) [].
Proof. apply (buildResponseSchema_refines sample_types _ []), path_ok_nil. Defined.

Lemma buildResponseSchema_selected_iff_witness :
  (∃ s, buildResponseSchema sample_types (mk_field "name" (GNamed "String") None) ["User"]
        = Some (Some s) ∧ s ≠ "")
  ↔ ("String" ∉ ["User"])
    ∧ ("String" ∈ builtin_scalars
       ∨ ∃ d, sample_types !! "String" = Some d ∧ td_values d = None).
Proof.
  apply (buildResponseSchema_selected_iff sample_types (mk_field "name" (GNamed "String") None)
           ["User"]).
  - split; [apply NoDup_singleton|]. intros t ->%list_elem_of_singleton. by eexists.
  - done.
  - done.
Defined.

Lemma buildResponseSchema_required_list_of_required_witness :
  buildResponseSchema sample_types
    (mk_field "users" (GNonNull (GList (GNonNull (GNamed "User")))) None) []
  = Some (Some "").
Proof.
  apply (buildResponseSchema_required_list_of_required sample_types "users" "User" None []);
    [apply sample_types_ok|reflexivity|apply path_ok_nil].
Defined.

Lemma buildQueryInput_balanced_witness :
  brace_scan 0 (default "" (buildQueryInput sample_types getUser)) = Some 0.
Proof.
  apply (buildQueryInput_balanced sample_types sample_fields_ok getUser);
    [repeat constructor|vm_compute; reflexivity].
Defined.

Lemma buildResponseSchema_root_empty_witness :
  buildResponseSchema (<["Box" := TDObject [mk_field "k" (GNamed "E") None]]>
                         (<["E" := TDEnum [mk_enum_value "A" (JNumber "1") None]]> ∅))
    (mk_field "box" (GNamed "Box") None) [] = Some (Some "").
Proof.
  apply buildResponseSchema_root_empty with (TDObject [mk_field "k" (GNamed "E") None]);
    [vm_compute; set_solver|reflexivity|reflexivity|].
  intros g ->%list_elem_of_singleton. right. vm_compute. reflexivity.
Defined.
