(* ===== verification/Json.v ===== *)
(** * [JSON.stringify(value, undefined, 4)]

    The ECMAScript algorithm on [jsval], with the gap of four spaces the
    plugin passes. A property whose value is [undefined] is omitted from
    an object, an [undefined] element of an array is written [null], and
    strings are quoted with the escapes of QuoteJSONString. The plugin
    only serialises objects. Property names of GraphQL fields and
    arguments are never array indices, so insertion order is the key
    order. *)

From S2P Require Import Prelude Js.

(** A double quote, without writing one in a literal. *)
Definition dq : string := String (Ascii.ascii_of_nat 34) EmptyString.

Definition hex_digit (n : nat) : ascii :=
  if bool_decide (n < 10) then Ascii.ascii_of_nat (48 + n) else Ascii.ascii_of_nat (87 + n).

(** The escape of one character in QuoteJSONString: backspace, tab,
    newline, form feed, carriage return, the double quote and the
    backslash by a backslash sequence, other control characters as
    [\u00XX]. Other bytes, including those of UTF-8 sequences, are kept. *)
Definition json_escape_char (c : ascii) : string :=
  let n := Ascii.nat_of_ascii c in
  if bool_decide (n = 8) then "\b"
  else if bool_decide (n = 9) then "\t"
  else if bool_decide (n = 10) then "\n"
  else if bool_decide (n = 12) then "\f"
  else if bool_decide (n = 13) then "\r"
  else if bool_decide (n = 34) then "\" +:+ dq
  else if bool_decide (n = 92) then "\\"
  else if bool_decide (n < 32)
       then "\u00" +:+ String (hex_digit (n / 16)) (String (hex_digit (n mod 16)) "")
  else String c "".

Fixpoint json_escape (s : string) : string :=
  match s with
  | EmptyString => ""
  | String c s' => json_escape_char c +:+ json_escape s'
  end.

(** QuoteJSONString. *)
Definition json_quote (s : string) : string := dq +:+ json_escape s +:+ dq.

(** The gap of [JSON.stringify(_, undefined, 4)]. *)
Definition json_gap : string := spaces 4.

(** SerializeJSONProperty at the current indentation: [None] for a value
    that is not serialised ([undefined]). *)
Fixpoint json_serialize (indent : string) (v : jsval) : option string :=
  let inner := indent +:+ json_gap in
  match v with
  | JUndefined => None
  | JNull => Some "null"
  | JBool true => Some "true"
  | JBool false => Some "false"
  | JNumber r => Some r
  | JString s => Some (json_quote s)
  | JArray vs =>
      let parts := map (λ e, default "null" (json_serialize inner e)) vs in
      match parts with
      | [] => Some "[]"
      | _ => Some ("[" +:+ nl +:+ inner +:+ js_join ("," +:+ nl +:+ inner) parts
                   +:+ nl +:+ indent +:+ "]")
      end
  | JObject ps =>
      let parts := omap (λ kv, match kv with
                               | (k, e) => s ← json_serialize inner e;
                                           Some (json_quote k +:+ ": " +:+ s)
                               end) ps in
      match parts with
      | [] => Some "{}"
      | _ => Some ("{" +:+ nl +:+ inner +:+ js_join ("," +:+ nl +:+ inner) parts
                   +:+ nl +:+ indent +:+ "}")
      end
  end.

(** [JSON.stringify(v, undefined, 4)]; [None] is [undefined]. *)
Definition json_stringify (v : jsval) : option string := json_serialize "" v.
