(* ===== verification/Plugin.v ===== *)
(** * The plugin: assembly of the documentation text (src/index.js, lines 9-203)

    [plugin(schema, documents, config)] reads the type map and the query
    fields. [getQueryType()] may be undefined, and then [.getFields()]
    throws. The header is pushed, then for every query: a heading, the
    argument table ([addSubFields(1, arg, [])] for each argument), the
    response table ([addSubFields(0, query, [])]), the request body and
    the response body, both serialised with [JSON.stringify(_, undefined, 4)].
    The result is [lines.join('  \n')].

    [lines] is only ever pushed to, so the model returns the lines a step
    pushes and the caller appends them in order. An exception (the
    [TypeError] of an empty enum, or of a missing query type) aborts the
    whole call, and the lines pushed so far are lost with it. [documents]
    and [config] are never read. A query's key in [getFields()] is its
    field name, so [name] is [fname (op_field query)]. [section_title]
    reads the heading of a line, to state that the output has one section
    per query ([plugin_lines_sections]). *)

From S2P Require Import Prelude Js Schema TypeExpr Walk FieldTable MockJson ResponseSchema Json.

(** Lines 158-166: the header pushed first. *)
Definition header_text : string :=
  nl +:+ spaces 12 +:+ "## 调用说明  "
  +:+ nl +:+ spaces 12 +:+ "### 接口地址  "
  +:+ nl +:+ spaces 12 +:+ "<code>POST http://host:port/graphql<code>  "
  +:+ nl +:+ spaces 12 +:+ "### 接口认证    "
  +:+ nl +:+ spaces 12 +:+ "调用登录接口成功后获取到sessionId, 通过cookie或者URL传参的方式提交回话ID, 例如: POST http://host:port/graphql?_sessionId=sid"
  +:+ nl +:+ spaces 12 +:+ "### 接口参数"
  +:+ nl +:+ spaces 12 +:+ "按照GraphQL接口语法规则构造请求体"
  +:+ nl +:+ spaces 8.

(** The [TypeError] of [schema.getQueryType().getFields()] without a query
    type. *)
Definition no_query_type_error : js_exn :=
  TypeError "Cannot read properties of undefined (reading 'getFields')".

(** [arr.map(f)] where [f] may throw: the first exception aborts. *)
Fixpoint map_completion {A B} (f : A → option (completion B)) (l : list A)
    : option (completion (list B)) :=
  match l with
  | [] => Some (Normal [])
  | x :: l' =>
      r ← f x;
      match r with
      | Throw e => Some (Throw e)
      | Normal v => rs ← map_completion f l'; Some (vs <-! rs; Normal (v :: vs))%cg
      end
  end.

(** [{...ctx, ...el}]: the properties of [ctx], then those of [el]
    assigned in order. *)
Definition js_spread (ctx el : list (string * jsval)) : list (string * jsval) :=
  foldl (λ acc kv, js_set kv.1 kv.2 acc) ctx el.

(** Lines 192-196: [query.args.map(arg => ({[arg.name]: buildMockJson(arg,
    [])})).reduce((ctx, el) => ({...ctx, ...el}), {})]. *)
Definition build_variables (types : gmap string typedef) (args : list field)
    : option (completion (list (string * jsval))) :=
  c ← map_completion (λ arg, v ← buildMockJson types arg []; Some (x <-! v; Normal [(fname arg, x)]))%cg args;
  Some (els <-! c; Normal (foldl js_spread [] els))%cg.

(** [JSON.stringify(v, undefined, 4)] pushed as a line ([undefined] joins as
    the empty string). *)
Definition json_line (v : jsval) : string := default "" (json_stringify v).

(** Lines 170-199: the lines pushed for one query. *)
Definition query_block (types : gmap string typedef) (query : operation)
    : option (completion (list string)) :=
  let name := fname (op_field query) in
  argRows ← mapM (λ arg, addSubFields types 1 arg []) (op_args query);
  retRows ← addSubFields types 0 (op_field query) [];
  queryText ← buildQueryInput types query;
  vars ← build_variables types (op_args query);
  data ← buildMockJson types (op_field query) [];
  Some (vs <-! vars; d <-! data;
        Normal (["";
                 "### " +:+ js_or (fdescription (op_field query)) name;
                 "#### 地址 http://host:port/graphql";
                 "#### 请求方式 POST";
                 "#### 方法名 \<" +:+ name +:+ "\>";
                 "|参数|类型|是否必须|说明|";
                 "|----|----|-----|-----|";
                 "|query|String|是|GraphQL语法的查询定义|";
                 "|variables|Object|是|查询参数|"]
                ++ map row_line (concat argRows)
                ++ ["";
                    "#### 响应类型定义";
                    "|字段|类型|是否必须|说明|";
                    "|----|----|-----|-----|"]
                ++ map row_line retRows
                ++ ["";
                    "#### 请求体示例";
                    json_line (JObject [("query", JString queryText); ("variables", JObject vs)]);
                    "#### 响应体示例";
                    json_line (JObject [("data", d)])]))%cg.

(** The lines of the whole output, before the join. *)
Definition plugin_lines (s : schema) : option (completion (list string)) :=
  match query_type s with
  | None => Some (Throw no_query_type_error)
  | Some queries =>
      blocks ← map_completion (query_block (types s)) queries;
      Some (bs <-! blocks; Normal (header_text :: concat bs))%cg
  end.

(** [plugin(schema, documents, config)]: [lines.join('  \n')]. *)
Definition plugin (s : schema) : option (completion string) :=
  ls ← plugin_lines s;
  Some (l <-! ls; Normal (js_join ("  " +:+ nl) l))%cg.

(** ** Lemmas on [map_completion] *)

Lemma map_completion_normal {A B} (f : A → option (completion B)) (l : list A) :
  (∀ x, x ∈ l → ∃ v, f x = Some (Normal v)) →
  ∃ vs, map_completion f l = Some (Normal vs) ∧ Forall2 (λ x v, f x = Some (Normal v)) l vs.
Proof.
  induction l as [|x l IH]; intros Hf; [by exists []|].
  destruct (Hf x ltac:(by left)) as [v Hv].
  destruct IH as (vs & Hvs & Hall); [intros y Hy; apply Hf; by right|].
  exists (v :: vs). simpl. rewrite Hv. simpl. rewrite Hvs. split; [done|by constructor].
Qed.

(** When every element returns, the only exception is [e], and one
    element throws, the map throws [e]. *)
Lemma map_completion_throw {A B} (f : A → option (completion B)) (l : list A) (e : js_exn) :
  (∀ x, x ∈ l → is_Some (f x)) →
  (∀ x e', x ∈ l → f x = Some (Throw e') → e' = e) →
  (∃ x e', x ∈ l ∧ f x = Some (Throw e')) →
  map_completion f l = Some (Throw e).
Proof.
  induction l as [|x l IH]; intros Hs He (y & e' & Hy & Hye); [by apply elem_of_nil in Hy|].
  simpl. destruct (Hs x ltac:(by left)) as [[v|e''] Hx]; rewrite Hx; simpl.
  - rewrite IH; [done|intros z Hz; apply Hs; by right|intros z ? Hz; apply He; by right|].
    apply elem_of_cons in Hy as [->|Hy]; [congruence|by exists y, e'].
  - f_equal. f_equal. apply (He x); [by left|done].
Qed.

Section Theorems.
Context (types : gmap string typedef).

(** Every walker call from the root returns (enough fuel). *)
Lemma root_calls_total (f : field) :
  (∀ d, is_Some (addSubFields types d f []))
  ∧ is_Some (buildMockJson types f []) ∧ is_Some (buildResponseSchema types f []).
Proof.
  split_and!; [intros d|..].
  - apply (guarded_fix_total types (addSubFields_body types)), path_ok_nil.
  - apply (guarded_fix_total types (buildMockJson_body types)), path_ok_nil.
  - apply (guarded_fix_total types (buildResponseSchema_body types)), path_ok_nil.
Qed.

Lemma buildQueryInput_total (q : operation) : is_Some (buildQueryInput types q).
Proof.
  unfold buildQueryInput. destruct (proj2 (proj2 (root_calls_total (op_field q))))
    as [rs ->]. done.
Qed.

Lemma build_variables_total (args : list field) : is_Some (build_variables types args).
Proof.
  unfold build_variables.
  assert (∀ l, is_Some (map_completion (λ arg, v ← buildMockJson types arg [];
                                          Some (x <-! v; Normal [(fname arg, x)]))%cg l)) as Hm.
  { induction l as [|a l IH]; simpl; [done|].
    destruct (proj1 (proj2 (root_calls_total a))) as [[v|e] ->]; simpl; [|done].
    destruct IH as [[vs|e] ->]; done. }
  destruct (Hm args) as [c ->]. done.
Qed.

(** The only exception of a query block is the [TypeError] of an empty
    enum. *)
Lemma build_variables_throw (args : list field) (e : js_exn) :
  build_variables types args = Some (Throw e) → e = empty_enum_error.
Proof.
  unfold build_variables.
  assert (∀ l, map_completion (λ arg, v ← buildMockJson types arg [];
                 Some (x <-! v; Normal [(fname arg, x)]))%cg l = Some (Throw e) →
               e = empty_enum_error) as Hm.
  { induction l as [|a l IH]; simpl; [done|].
    destruct (buildMockJson types a []) as [[v|e']|] eqn:Ha; simpl; [|..|done].
    - destruct (map_completion _ l) as [[vs|e']|]; simpl; [done| |done]. intros [= ->]. by apply IH.
    - intros [= ->]. by apply (buildMockJson_throw types a []); [apply path_ok_nil|]. }
  destruct (map_completion _ args) as [[els|e']|] eqn:Hc; simpl; [done| |done].
  intros [= ->]. by apply (Hm args).
Qed.

Lemma query_block_total (q : operation) : is_Some (query_block types q).
Proof.
  unfold query_block.
  destruct (mapM_is_Some_elem (λ arg, addSubFields types 1 arg []) (op_args q)) as [rs ->].
  { intros a _. apply root_calls_total. }
  destruct (proj1 (root_calls_total (op_field q)) 0) as [rr ->].
  destruct (buildQueryInput_total q) as [t ->].
  destruct (build_variables_total (op_args q)) as [vs ->].
  destruct (proj1 (proj2 (root_calls_total (op_field q)))) as [d ->]. done.
Qed.

Lemma query_block_throw (q : operation) (e : js_exn) :
  query_block types q = Some (Throw e) → e = empty_enum_error.
Proof.
  unfold query_block.
  destruct (mapM _ _), (addSubFields _ _ _ _), (buildQueryInput _ _); simpl; try done.
  destruct (build_variables types (op_args q)) as [[vs|e']|] eqn:Hv,
    (buildMockJson types (op_field q) []) as [[d|e'']|] eqn:Hd; simpl; try done;
    intros [= ->].
  - by apply (buildMockJson_throw types (op_field q) []); [apply path_ok_nil|].
  - by apply (build_variables_throw (op_args q)).
  - by apply (build_variables_throw (op_args q)).
Qed.

(** With every enum non-empty, a query block returns its lines. *)
Lemma build_variables_normal (args : list field) :
  enums_nonempty types →
  ∃ els, map_completion (λ arg, v ← buildMockJson types arg [];
                          Some (x <-! v; Normal [(fname arg, x)]))%cg args = Some (Normal els)
    ∧ Forall2 (λ arg el, ∃ x, el = [(fname arg, x)]) args els.
Proof.
  intros Henum.
  destruct (map_completion_normal (λ arg, v ← buildMockJson types arg [];
              Some (x <-! v; Normal [(fname arg, x)]))%cg args) as (els & Hels & Hall).
  { intros a _. destruct (buildMockJson_normal types a [] Henum (path_ok_nil types)) as [v Hv].
    rewrite Hv. by eexists. }
  exists els. split; [done|]. eapply Forall2_impl; [exact Hall|]. intros a el Ha.
  cbv beta in Ha. destruct (buildMockJson types a []) as [[v|e]|]; simpl in Ha; try done.
  exists v. congruence.
Qed.

Lemma query_block_normal (q : operation) :
  enums_nonempty types → ∃ ls, query_block types q = Some (Normal ls).
Proof.
  intros Henum. unfold query_block.
  destruct (mapM_is_Some_elem (λ arg, addSubFields types 1 arg []) (op_args q)) as [rs ->].
  { intros a _. apply root_calls_total. }
  destruct (proj1 (root_calls_total (op_field q)) 0) as [rr ->].
  destruct (buildQueryInput_total q) as [t ->]. simpl.
  unfold build_variables. destruct (build_variables_normal (op_args q) Henum) as (els & -> & _).
  destruct (buildMockJson_normal types (op_field q) [] Henum (path_ok_nil types)) as [d ->].
  by eexists.
Qed.

(** The spread of one-property objects with fresh keys appends them. *)
Lemma foldl_spread_keys (args : list field) (els : list (list (string * jsval)))
    (ctx : list (string * jsval)) :
  Forall2 (λ arg el, ∃ x, el = [(fname arg, x)]) args els →
  NoDup (ctx.*1 ++ (fname <$> args)) →
  (foldl js_spread ctx els).*1 = ctx.*1 ++ (fname <$> args).
Proof.
  intros Hall. revert ctx. induction Hall as [|a el args els [x ->] _ IH]; intros ctx Hnd.
  { by rewrite app_nil_r. }
  simpl.
  assert (fname a ∉ ctx.*1) as Hfresh.
  { intros Hin. apply NoDup_app in Hnd as (_ & Hd & _). apply (Hd _ Hin). by left. }
  rewrite js_set_fresh by done. rewrite IH; rewrite fmap_app; simpl; rewrite <- app_assoc; done.
Qed.

(** C30. The variables of the example request have one property per
    argument, in declaration order (argument names are distinct). *)
Theorem build_variables_keys (args : list field) :
  enums_nonempty types → NoDup (fname <$> args) →
  ∃ vars, build_variables types args = Some (Normal vars) ∧ vars.*1 = fname <$> args.
Proof.
  intros Henum Hnd. unfold build_variables.
  destruct (build_variables_normal args Henum) as (els & -> & Hall).
  eexists. split; [done|]. by apply (foldl_spread_keys args els []).
Qed.
End Theorems.

(** ** The sections of the document *)

(** The title of a line that opens a query's section ([### ...]). *)
Definition section_title (l : string) : option string :=
  if String.prefix "### " l then Some (str_drop 4 l) else None.

(** A query's section title: its description, or its name. *)
Definition query_title (q : operation) : string :=
  js_or (fdescription (op_field q)) (fname (op_field q)).

Lemma section_title_row (r : row) : section_title (row_line r) = None.
Proof. reflexivity. Qed.

Lemma section_title_json (ps : list (string * jsval)) :
  section_title (json_line (JObject ps)) = None.
Proof. unfold json_line, json_stringify. simpl. by case_match. Qed.

(** The lines of one query's block hold exactly one section title, the
    query's. *)
Lemma query_block_sections (types : gmap string typedef) (q : operation) (ls : list string) :
  query_block types q = Some (Normal ls) → omap section_title ls = [query_title q].
Proof.
  unfold query_block.
  destruct (mapM _ _), (addSubFields _ _ _ _), (buildQueryInput _ _); simpl; try done.
  destruct (build_variables _ _) as [[vs|]|], (buildMockJson _ _ _) as [[d|]|];
    simpl; try done.
  intros [= <-]. repeat (rewrite omap_cons || rewrite omap_app).
  rewrite !omap_map_none, !section_title_json by apply section_title_row.
  unfold section_title. rewrite !str_app_cons. cbn. by rewrite str_app_nil_l, prefix_nil.
Qed.

Lemma map_completion_Forall2 {A B} (f : A → option (completion B)) (l : list A) (vs : list B) :
  map_completion f l = Some (Normal vs) → Forall2 (λ x v, f x = Some (Normal v)) l vs.
Proof.
  revert vs. induction l as [|x l IH]; intros vs; simpl; [by intros [= <-]|].
  destruct (f x) as [[v|e]|] eqn:Hx; simpl; try done.
  destruct (map_completion f l) as [[vs'|e]|]; simpl; try done.
  intros [= <-]. constructor; [done|by apply IH].
Qed.

(** C26. The document has one section per field of the query type, in
    the order of the fields, titled by the field's description or, when
    it has none, its name; the header and the other lines open none. *)
Theorem plugin_lines_sections (s : schema) (queries : list operation) (ls : list string) :
  query_type s = Some queries → plugin_lines s = Some (Normal ls) →
  omap section_title ls = map query_title queries.
Proof.
  intros Hq. unfold plugin_lines. rewrite Hq.
  destruct (map_completion _ _) as [[bs|e]|] eqn:Hbs; simpl; try done.
  intros [= <-]. apply map_completion_Forall2 in Hbs.
  rewrite omap_cons. assert (section_title header_text = None) as -> by reflexivity.
  rewrite app_nil_l. clear Hq.
  induction Hbs as [|q b qs bs Hb _ IH]; [done|].
  cbn [concat map]. rewrite omap_app, (query_block_sections _ _ _ Hb), IH. done.
Qed.

(** C5. Safety: when no enum of the schema is empty and the schema has a
    query type, [plugin] returns its text, with no exception. *)
Theorem plugin_total (s : schema) (queries : list operation) :
  enums_nonempty (types s) → query_type s = Some queries →
  ∃ text, plugin s = Some (Normal text).
Proof.
  intros Henum Hq. unfold plugin, plugin_lines. rewrite Hq.
  destruct (map_completion_normal (query_block (types s)) queries) as (bs & -> & _).
  { intros q _. by apply query_block_normal. }
  by eexists.
Qed.

Definition sample_schema : schema := mk_schema sample_types (Some [getUser]).

(** C23. Without a query type, [schema.getQueryType().getFields()] throws
    before anything is produced. *)
Theorem plugin_no_query_type (s : schema) :
  query_type s = None → plugin s = Some (Throw no_query_type_error).
Proof. intros Hq. unfold plugin, plugin_lines. by rewrite Hq. Qed.

(** C22. A query whose return type is an enum without values makes the
    whole plugin throw the [TypeError] of [define._values[0].value]. *)
Theorem plugin_empty_enum (s : schema) (queries : list operation) (q : operation) :
  query_type s = Some queries → q ∈ queries →
  mock_scalar (field_base (op_field q)) (op_field q) = None →
  types s !! field_base (op_field q) = Some (TDEnum []) →
  plugin s = Some (Throw empty_enum_error).
Proof.
  intros Hq Hin Hs Hd. unfold plugin, plugin_lines. rewrite Hq.
  rewrite (map_completion_throw _ _ empty_enum_error); [done| |..].
  - intros q' _. apply query_block_total.
  - intros q' e _. apply query_block_throw.
  - exists q. destruct (query_block_total (types s) q) as [[ls|e] Hb].
    + exfalso. revert Hb. unfold query_block.
      destruct (mapM _ _), (addSubFields _ _ _ _), (buildQueryInput _ _); simpl; try done.
      rewrite (buildMockJson_empty_enum (types s) (op_field q) []); [|apply path_ok_nil|set_solver|done|done].
      destruct (build_variables _ _) as [[]|]; done.
    + exists e. done.
Qed.


(** ** Witnesses *)

Lemma plugin_total_witness : ∃ text, plugin sample_schema = Some (Normal text).
Proof.
  apply (plugin_total sample_schema [getUser]); [apply sample_enums_nonempty|reflexivity].
Defined.

Lemma build_variables_keys_witness :
  ∃ vars, build_variables sample_types (op_args getUser) = Some (Normal vars)
    ∧ vars.*1 = ["id"].
Proof.
  apply (build_variables_keys sample_types (op_args getUser)); [apply sample_enums_nonempty|].
  vm_compute. apply NoDup_singleton.
Defined.

Lemma plugin_no_query_type_witness :
  plugin (mk_schema sample_types None) = Some (Throw no_query_type_error).
Proof. apply plugin_no_query_type. reflexivity. Defined.

Lemma plugin_empty_enum_witness :
  plugin (mk_schema (<["E" := TDEnum []]> ∅)
            (Some [mk_operation (mk_field "e" (GNamed "E") None) []]))
  = Some (Throw empty_enum_error).
Proof.
  apply (plugin_empty_enum _ [mk_operation (mk_field "e" (GNamed "E") None) []]
           (mk_operation (mk_field "e" (GNamed "E") None) [])); [reflexivity|by left|reflexivity|reflexivity].
Defined.

Lemma plugin_lines_sections_witness :
  omap section_title (match plugin_lines sample_schema with Some (Normal ls) => ls | _ => [] end)
  = ["getUser"].
Proof. apply (plugin_lines_sections sample_schema [getUser]); [reflexivity|vm_compute; reflexivity]. Defined.
